(** * 25AA1024 serial EEPROM driver: a shallow embedding of 25AA1024.h / 25AA1024.c

    The driver talks to the memory through three things it does not own:
    the SPI byte transport ([SPI_Write_Byte], [SPI_Read_Byte], from
    TinySPI.h), the AVR port A output register and data-direction register
    ([PORTA], [DDRA]) and the port A input register ([PINA]).  The registers
    are modelled as fields of a [world]; the transport and the pin read-back
    are oracles over an abstract device state, so that every theorem holds
    for every behaviour of the hardware.  Each access to the hardware is
    logged in the world's [trace], which is what the theorems about command
    framing talk about. *)

From Stdlib Require Import ZArith List Bool Lia.
Import ListNotations.
Open Scope Z_scope.

(** ** Constants of 25AA1024.h *)

Definition MEMSUCC : Z := 0.
Definition MEMFAIL : Z := 2.
Definition MEMTRUE : Z := 1.
Definition MEMFALSE : Z := 0.

Definition WP_USED : Z := MEMFALSE.

Definition PAGE_SIZE : Z := 256.
Definition NUM_PAGES : Z := 512.
Definition MEMSIZE : Z := 0x01FFFF.

Definition BP00 : Z := 0x01FFFF.
Definition BP01 : Z := 0x017FFF.
Definition BP10 : Z := 0x00FFFF.
Definition BP11 : Z := 0x000000.

(** Bit numbers of port A, as <avr/io.h> defines PORTA0 .. PORTA7. *)
Definition CS0 : Z := 0.
Definition CS1 : Z := 1.
Definition CS2 : Z := 2.
Definition CS3 : Z := 3.
Definition WP0 : Z := 4.
Definition WP1 : Z := 5.
Definition WP2 : Z := 6.
Definition WP3 : Z := 7.

Definition MREAD : Z := 0x03.
Definition MWRITE : Z := 0x02.
Definition MWREN : Z := 0x06.
Definition MWRDI : Z := 0x04.
Definition MRDSR : Z := 0x05.
Definition MWRSR : Z := 0x01.
Definition MPE : Z := 0x42.
Definition MSE : Z := 0xD8.
Definition MCE : Z := 0xC7.
Definition MRDID : Z := 0xAB.
Definition MDPD : Z := 0xB9.

Definition MWIP : Z := 0.
Definition MWEL : Z := 1.
Definition MBP0 : Z := 2.
Definition MBP1 : Z := 3.

Definition MDEVICE : Z := 0x29.

(** ** The integer types of avr-gcc

    [short] and [int] are 16 bits wide, [long] 32 bits, the I/O registers
    8 bits.  A conversion keeps the low bits. *)

Definition to_unsigned (bits v : Z) : Z := v mod 2 ^ bits.

Definition to_signed (bits v : Z) : Z :=
  let u := v mod 2 ^ bits in
  if u <? 2 ^ (bits - 1) then u else u - 2 ^ bits.

Definition to_uint8 : Z -> Z := to_unsigned 8.
Definition to_short : Z -> Z := to_signed 16.
Definition to_int : Z -> Z := to_signed 16.
Definition to_ulong : Z -> Z := to_unsigned 32.

(** ** The hardware the driver runs against *)

(** The external collaborators, over a device state [D].  A transport
    function returns its status (zero is success) and the next device state.
    [SPI_Read_Byte flag] also returns the value it leaves in the [short] its
    pointer argument designates; [PINA port ddr] is what reading the input
    register yields when the output and direction registers hold [port] and
    [ddr]. *)
Record Hardware (D : Type) : Type := mkHardware {
  SPIFALSE : Z;
  SPI_Write_Byte : Z -> D -> Z * D;
  SPI_Read_Byte : Z -> D -> Z * Z * D;
  PINA : Z -> Z -> D -> Z * D
}.

Arguments SPIFALSE {D} _.
Arguments SPI_Write_Byte {D} _ _ _.
Arguments SPI_Read_Byte {D} _ _ _.
Arguments PINA {D} _ _ _ _.

(** What the driver does to the hardware, in program order. *)
Inductive event : Type :=
| EvDDR (v : Z)                 (* ContDDR written with v *)
| EvPort (v : Z)                (* ContPort written with v *)
| EvPin (v : Z)                 (* RContPort read as v *)
| EvTx (byte rc : Z)            (* SPI_Write_Byte(byte) returned rc *)
| EvRx (flag rc byte : Z).      (* SPI_Read_Byte(flag, &b) returned rc, b = byte *)

Record world (D : Type) : Type := mkWorld {
  ContPort : Z;
  ContDDR : Z;
  dev : D;
  trace : list event
}.

Arguments mkWorld {D} _ _ _ _.
Arguments ContPort {D} _.
Arguments ContDDR {D} _.
Arguments dev {D} _.
Arguments trace {D} _.

(** The bytes handed to the transport, and the number of bytes read back. *)
Fixpoint tx_bytes (l : list event) : list Z :=
  match l with
  | [] => []
  | EvTx b _ :: l' => b :: tx_bytes l'
  | _ :: l' => tx_bytes l'
  end.

(** The bytes received by the receptions that succeeded, in order. *)
Fixpoint rx_bytes (l : list event) : list Z :=
  match l with
  | [] => []
  | EvRx _ rc b :: l' => if rc =? 0 then b :: rx_bytes l' else rx_bytes l'
  | _ :: l' => rx_bytes l'
  end.

Fixpoint rx_count (l : list event) : nat :=
  match l with
  | [] => O
  | EvRx _ _ _ :: l' => S (rx_count l')
  | _ :: l' => rx_count l'
  end.

(** A transport call that reported failure. *)
Definition faulted (e : event) : bool :=
  match e with
  | EvTx _ rc => negb (rc =? 0)
  | EvRx _ rc _ => negb (rc =? 0)
  | _ => false
  end.

(** The values written to the output register, in order. *)
Fixpoint port_writes (l : list event) : list Z :=
  match l with
  | [] => []
  | EvPort v :: l' => v :: port_writes l'
  | _ :: l' => port_writes l'
  end.

(** ** The steps of an operation *)

(** A step of an operation: an access to the hardware, and whether the
    operation gives up after it. *)
Definition step : Type := (event * bool)%type.

(** Writing the output register and reading a pin whose level is not
    tested never stop an operation; a pin read that is tested stops it when
    the line does not have the level wanted; a transfer stops it when the
    transport reports a failure. *)
Definition write_port (v : Z) : step := (EvPort v, false).
Definition read_pin (p : Z) : step := (EvPin p, false).
Definition read_pin_high (p line : Z) : step := (EvPin p, negb (Z.testbit p line)).
Definition read_pin_low (p line : Z) : step := (EvPin p, Z.testbit p line).
Definition transmit (byte rc : Z) : step := (EvTx byte rc, negb (rc =? 0)).
Definition receive (flag rc byte : Z) : step := (EvRx flag rc byte, negb (rc =? 0)).

(** What is done of a list of steps: all of them up to and including the
    first after which the operation gives up. *)
Fixpoint until_failed (script : list step) : list event :=
  match script with
  | [] => []
  | (e, gives_up) :: rest => if gives_up then [e] else e :: until_failed rest
  end.

Definition all_passed (script : list step) : bool :=
  forallb (fun s => negb (snd s)) script.

(** The receptions of a read, from the status and the byte of each. *)
Definition receptions (flag : Z) (rxs : list (Z * Z)) : list step :=
  map (fun x => receive flag (fst x) (snd x)) rxs.

(** Receptions that succeeded, from their bytes. *)
Definition received (bs : list Z) : list (Z * Z) := map (fun b => (0, b)) bs.

(** The operation gives up after every transfer that failed. *)
Definition well_flagged (s : list step) : Prop :=
  Forall (fun x => faulted (fst x) = true -> snd x = true) s.

(** ** Concrete hardware, to run the driver on *)

(** A device state for the concrete hardware: how many more transmissions
    succeed before the transport starts to fail, and the byte the memory
    answers. *)
Record bench : Type := mkBench {
  tx_budget : nat;
  answer : Z
}.

(** Output pins read back as driven; transmission fails once the budget is
    used up; reception always succeeds with [answer], which then counts up. *)
Definition wired : Hardware bench :=
  mkHardware bench 0
    (fun _ d => match tx_budget d with
                | O => (1, d)
                | S n => (0, mkBench n (answer d))
                end)
    (fun _ d => (0, answer d, mkBench (tx_budget d) (answer d + 1)))
    (fun port _ d => (port, d)).

(** As [wired], but every pin of port A reads back high whatever is driven
    (lines held up externally, or pins never made outputs). *)
Definition stuck_high : Hardware bench :=
  mkHardware bench 0
    (SPI_Write_Byte wired)
    (SPI_Read_Byte wired)
    (fun _ _ d => (0xFF, d)).

(** As [wired], but every pin of port A reads back low whatever is driven. *)
Definition stuck_low : Hardware bench :=
  mkHardware bench 0
    (SPI_Write_Byte wired)
    (SPI_Read_Byte wired)
    (fun _ _ d => (0, d)).

(** As [wired], but reception fails. *)
Definition deaf : Hardware bench :=
  mkHardware bench 0
    (SPI_Write_Byte wired)
    (fun _ d => (1, 0x55, d))
    (PINA wired).

(** As [wired], but a reception uses up the budget as a transmission does,
    and fails once it is used up. *)
Definition fading : Hardware bench :=
  mkHardware bench 0
    (SPI_Write_Byte wired)
    (fun _ d => match tx_budget d with
                | O => (1, 0x55, d)
                | S n => (0, answer d, mkBench n (answer d + 1))
                end)
    (PINA wired).

Definition power_on (b : bench) : world bench := mkWorld 0xFF 0xFF b [].

Section Driver.

Context {D : Type}.
Variable hw : Hardware D.

(** The indeterminate content of an automatic variable that is declared
    without an initialiser. *)
Variable stack_junk : Z.

(** ** Stateful code: a state monad over the world *)

Definition M (A : Type) : Type := world D -> A * world D.

Definition ret {A : Type} (a : A) : M A := fun w => (a, w).

Definition bind {A B : Type} (m : M A) (k : A -> M B) : M B :=
  fun w => let (a, w') := m w in k a w'.

Notation "x <- m ;; k" := (bind m (fun x => k))
  (at level 61, m at next level, right associativity).
Notation "' pat <- m ;; k" := (bind m (fun x => match x with pat => k end))
  (at level 61, pat pattern, m at next level, right associativity).
Notation "m ;;; k" := (bind m (fun _ => k))
  (at level 61, right associativity).

(** [if( f(..) ) return MEMFAIL;] followed by the rest of the function. *)
Notation "'bail_if' m ;; k" :=
  (bind m (fun rc => if rc =? 0 then k else ret MEMFAIL))
  (at level 61, m at next level, right associativity).

(** *** Register and transport accesses *)

Definition log (e : event) (w : world D) : list event := trace w ++ [e].

Definition get_ContPort : M Z := fun w => (ContPort w, w).

Definition set_ContPort (v : Z) : M unit := fun w =>
  let v8 := to_uint8 v in
  (tt, mkWorld v8 (ContDDR w) (dev w) (log (EvPort v8) w)).

Definition get_ContDDR : M Z := fun w => (ContDDR w, w).

Definition set_ContDDR (v : Z) : M unit := fun w =>
  let v8 := to_uint8 v in
  (tt, mkWorld (ContPort w) v8 (dev w) (log (EvDDR v8) w)).

Definition get_RContPort : M Z := fun w =>
  let (v, d) := PINA hw (ContPort w) (ContDDR w) (dev w) in
  let v8 := to_uint8 v in
  (v8, mkWorld (ContPort w) (ContDDR w) d (log (EvPin v8) w)).

Definition _NOP : M unit := ret tt.

Definition spi_write (byte : Z) : M Z := fun w =>
  let (rc, d) := SPI_Write_Byte hw byte (dev w) in
  (rc, mkWorld (ContPort w) (ContDDR w) d (log (EvTx byte rc) w)).

Definition spi_read (flag : Z) : M (Z * Z) := fun w =>
  let '(rc, b, d) := SPI_Read_Byte hw flag (dev w) in
  ((rc, b), mkWorld (ContPort w) (ContDDR w) d (log (EvRx flag rc b) w)).

(** ** Pin mux *)

Definition GetCS (chip : Z) : Z :=
  match chip with
  | 0 => CS0
  | 1 => CS1
  | 2 => CS2
  | 3 => CS3
  | _ => CS0
  end.

Definition GetWP (chip : Z) : Z :=
  match chip with
  | 0 => WP0
  | 1 => WP1
  | 2 => WP2
  | 3 => WP3
  | _ => WP0
  end.

(** [ContPort |= (1<<pin)] and [ContPort &= ~(1<<pin)]. *)
Definition port_set (port pin : Z) : Z := Z.lor port (Z.shiftl 1 pin).
Definition port_clear (port pin : Z) : Z := Z.land port (Z.lnot (Z.shiftl 1 pin)).

Definition SetCS (chip : Z) : M Z :=
  let CCS := GetCS chip in
  p <- get_ContPort ;;
  set_ContPort (port_set p CCS) ;;;
  _NOP ;;;
  temp <- get_RContPort ;;
  if negb (Z.land temp (Z.shiftl 1 CCS) =? 0) then ret MEMSUCC
  else ret MEMFAIL.

Definition ClearCS (chip : Z) : M Z :=
  let CCS := GetCS chip in
  p <- get_ContPort ;;
  set_ContPort (port_clear p CCS) ;;;
  _NOP ;;;
  temp <- get_RContPort ;;
  if Z.land temp (Z.shiftl 1 CCS) =? 0 then ret MEMSUCC
  else ret MEMFAIL.

Definition SetWP (chip : Z) : M Z :=
  let CWP := GetWP chip in
  p <- get_ContPort ;;
  set_ContPort (port_set p CWP) ;;;
  _NOP ;;;
  temp <- get_RContPort ;;
  if negb (Z.land temp (Z.shiftl 1 CWP) =? 0) then ret MEMSUCC
  else ret MEMFAIL.

Definition ClearWP (chip : Z) : M Z :=
  let CWP := GetWP chip in
  p <- get_ContPort ;;
  set_ContPort (port_clear p CWP) ;;;
  _NOP ;;;
  temp <- get_RContPort ;;
  if Z.land temp (Z.shiftl 1 CWP) =? 0 then ret MEMSUCC
  else ret MEMFAIL.

(** ** Byte framer *)

Definition SendByte (byte : Z) : M Z :=
  bail_if spi_write byte ;;
  ret MEMSUCC.

(** Returns the status and the content of [*byte]. *)
Definition ReadByte : M (Z * Z) :=
  '(rc, b) <- spi_read (SPIFALSE hw) ;;
  if rc =? 0 then ret (MEMSUCC, b) else ret (MEMFAIL, b).

(** The result of [ClearCS] is dropped, as in the source. *)
Definition SendCommand (chip Command : Z) : M Z :=
  ClearCS chip ;;;
  bail_if SendByte Command ;;
  ret MEMSUCC.

Definition SendAddress (chip Address : Z) : M Z :=
  let Addr_Hi := to_short (Z.land (Z.shiftr Address 16) 0x000000FF) in
  let Addr_LoHi := to_short (Z.land (Z.shiftr Address 8) 0x000000FF) in
  let Addr_LoLo := to_short (Z.land Address 0x000000FF) in
  bail_if SendByte Addr_Hi ;;
  bail_if SendByte Addr_LoHi ;;
  bail_if SendByte Addr_LoLo ;;
  ret MEMSUCC.

Definition SendCommandAndAddress (chip Command Address : Z) : M Z :=
  bail_if SendCommand chip Command ;;
  bail_if SendAddress chip Address ;;
  ret MEMSUCC.

(** ** Read / wake / sleep *)

(** [data[count] = TData;] on the caller's buffer, seen as the memory that
    starts at [data], indexed by element. *)
Definition store (data : Z -> Z) (count TData : Z) : Z -> Z :=
  fun i => if i =? count then TData else data i.

(** The [for] loop of [ReadData] with [n] iterations left.  The status is
    [MEMFAIL] when the loop body returned from the function, [MEMSUCC] when
    the loop ran to its end. *)
Fixpoint ReadData_loop (n : nat) (count : Z) (data : Z -> Z) : M (Z * (Z -> Z)) :=
  match n with
  | O => ret (MEMSUCC, data)
  | S n' =>
      '(rc, TData) <- ReadByte ;;
      if rc =? 0 then ReadData_loop n' (count + 1) (store data count TData)
      else ret (MEMFAIL, data)
  end.

(** The buffer after the bytes [bs] were stored from index [count] on, one
    iteration of the loop each. *)
Fixpoint fill (data : Z -> Z) (count : Z) (bs : list Z) : Z -> Z :=
  match bs with
  | [] => data
  | b :: bs' => fill (store data count b) (count + 1) bs'
  end.

(** [count] is an [unsigned long], so [count<NumBytes] compares with
    [NumBytes] converted to [unsigned long]. *)
Definition ReadData (chip Address NumBytes : Z) (data : Z -> Z) : M (Z * (Z -> Z)) :=
  rc <- SendCommandAndAddress chip MREAD Address ;;
  if rc =? 0 then
    '(rc, data') <- ReadData_loop (Z.to_nat (to_ulong NumBytes)) 0 data ;;
    if rc =? 0 then
      rc <- SetCS chip ;;
      if rc =? 0 then ret (MEMSUCC, data') else ret (MEMFAIL, data')
    else ret (MEMFAIL, data')
  else ret (MEMFAIL, data).

Definition WakeMem (chip : Z) : M Z :=
  bail_if SendCommandAndAddress chip MRDID 0x00A5A5A5 ;;
  '(rc, TData) <- ReadByte ;;
  if rc =? 0 then
    bail_if SetCS chip ;;
    if negb (TData =? MDEVICE) then ret MEMFAIL
    else ret MEMSUCC
  else ret MEMFAIL.

Definition SleepMem (chip : Z) : M Z :=
  let talk :=
    bail_if ClearCS chip ;;
    bail_if SendCommand chip MDPD ;;
    bail_if SetCS chip ;;
    ret MEMSUCC in
  if negb (WP_USED =? 0) then bail_if ClearWP chip ;; talk
  else talk.

(** ** Status register *)

(** [status] is the content of the caller's [*status] on entry; the result
    is the status and the content of [*status] on return. *)
Definition ReadMemStatus (chip status : Z) : M (Z * Z) :=
  rc <- SendCommand chip MRDSR ;;
  if rc =? 0 then
    '(rc, temp) <- ReadByte ;;
    if rc =? 0 then ret (MEMSUCC, temp)
    else ret (MEMFAIL, status)
  else ret (MEMFAIL, status).

(** [status] is the content of [*status], which the function only reads. *)
Definition WriteMemStatus (chip status : Z) : M Z :=
  let temp := status in
  bail_if SetWP chip ;;
  bail_if SendCommand chip MWRSR ;;
  bail_if SendByte temp ;;
  bail_if ClearWP chip ;;
  '(rc, new_status) <- ReadMemStatus chip stack_junk ;;
  if rc =? 0 then
    if negb (Z.land temp 0x8C =? Z.land new_status 0x8C) then ret MEMFAIL
    else ret MEMSUCC
  else ret MEMFAIL.

Definition CheckWIP (chip : Z) : M Z :=
  '(rc, status) <- ReadMemStatus chip stack_junk ;;
  if rc =? 0 then
    if negb (Z.land status (Z.shiftl 1 MWIP) =? 0) then ret MEMTRUE
    else ret MEMFALSE
  else ret MEMFAIL.

(** ** Initialisation *)

(** [ContDDR |= (1<<pin)] and [ContDDR &= ~(1<<pin)]. *)
Definition ddr_output (pin : Z) : M unit :=
  d <- get_ContDDR ;; set_ContDDR (Z.lor d (Z.shiftl 1 pin)).

Definition ddr_input (pin : Z) : M unit :=
  d <- get_ContDDR ;; set_ContDDR (Z.land d (Z.lnot (Z.shiftl 1 pin))).

Definition InitMem (chip : Z) : M Z :=
  let finish :=
    if negb (WP_USED =? 0) then bail_if ClearWP chip ;; ret MEMSUCC
    else ret MEMSUCC in
  match chip with
  | 0 => ddr_output CS0 ;;; ddr_output WP0 ;;; finish
  | 1 => ddr_output CS1 ;;; ddr_output WP1 ;;; finish
  | 2 => ddr_output CS2 ;;; ddr_output WP2 ;;; finish
  | 3 => ddr_output CS3 ;;; ddr_output WP3 ;;; finish
  | _ => ret MEMFAIL
  end.

Definition CloseMem (chip : Z) : M unit :=
  match chip with
  | 0 => ddr_input CS0 ;;; ddr_input WP0
  | 1 => ddr_input CS1 ;;; ddr_input WP1
  | 2 => ddr_input CS2 ;;; ddr_input WP2
  | 3 => ddr_input CS3 ;;; ddr_input WP3
  | _ => ret tt
  end.

(** ** Page arithmetic *)

(** The [int] objects [GetPage] can name, and a pointer into one of them. *)
Inductive int_object : Type :=
| caller_page      (* the int the caller passed the address of *)
| local_temp.      (* the automatic variable temp *)

Record int_ptr : Type := mkPtr {
  base : int_object;
  offset : Z
}.

(** [caller] is the content of the caller's [int] on entry; the result is
    the status and the content of that [int] on return.  The parameter
    [page] is a local copy of the caller's pointer: the function assigns to
    it and decrements it, and stores through neither value. *)
Definition GetPage (Address : Z) (caller : Z) : Z * Z :=
  let page := mkPtr caller_page 0 in
  let temp := to_int (Z.quot Address PAGE_SIZE) in
  let page := mkPtr local_temp 0 in
  let page := mkPtr (base page) (offset page - 1) in
  if temp >? 511 then (MEMFAIL, caller)
  else (MEMSUCC, caller).

Definition Min (num1 num2 : Z) : Z :=
  if num1 <? num2 then num1 else num2.

(** ** Protection policy and mutating operations

    25AA1024.h declares [CheckProtect], [WriteEnable], [WriteData],
    [ErasePage], [EraseSector] and [EraseChip]; 25AA1024.c does not define
    them.  They are modelled here from the specification, over the framer
    and pin mux above. *)

(** Modelled from the spec: the outcome of a mutating operation, which the
    missing functions would report ("a small closed set of error variants"). *)
Inductive outcome : Type :=
| Done
| BusFault
| PinFault
| ProtectionViolation
| StillBusy.

(** Modelled from the spec: the table of [CheckProtect], which is missing;
    "level 0 -> 0x01FFFF, level 1 -> 0x017FFF, level 2 -> 0x00FFFF,
    level 3 -> 0x000000", with the header's constants. *)
Definition unprotectedBound (L : Z) : Z :=
  match L with
  | 0 => BP00
  | 1 => BP01
  | 2 => BP10
  | _ => BP11
  end.

(** Modelled from the spec: the decision of [CheckProtect], which is
    missing; "a target address above that bound is protected". *)
Definition isProtected (L Address : Z) : bool :=
  Address >? unprotectedBound L.

(** Modelled from the spec: [WriteEnable], which is missing; "single-opcode
    commands that arm/disarm the latch", ended by deselecting the chip. *)
Definition WriteEnable (chip : Z) : M outcome :=
  rc <- SendCommand chip MWREN ;;
  if rc =? 0 then
    rc <- SetCS chip ;;
    if rc =? 0 then ret Done else ret PinFault
  else ret BusFault.

(** Modelled from the spec: the busy-poll that follows a mutating command,
    which is missing; [CheckWIP] until the bit clears, at most [polls]
    times ("an explicit blocking loop with caller-supplied ... bound"),
    then deselect. *)
Fixpoint AwaitCompletion (polls : nat) (chip : Z) : M outcome :=
  match polls with
  | O => ret StillBusy
  | S polls' =>
      busy <- CheckWIP chip ;;
      if busy =? MEMFAIL then ret BusFault
      else if busy =? MEMTRUE then AwaitCompletion polls' chip
      else
        rc <- SetCS chip ;;
        if rc =? 0 then ret Done else ret PinFault
  end.

(** Modelled from the spec: the body shared by the missing erase functions;
    "validate protection ..., WriteEnable, issue the erase opcode (with
    address for page/sector, opcode-only for chip), then busy-poll to
    completion".  [target] is the highest address the command changes. *)
Definition Mutate (L target : Z) (polls : nat) (chip : Z) (command : M Z) : M outcome :=
  if isProtected L target then ret ProtectionViolation
  else
    armed <- WriteEnable chip ;;
    match armed with
    | Done =>
        rc <- command ;;
        if rc =? 0 then
          rc <- SetCS chip ;;
          if rc =? 0 then AwaitCompletion polls chip else ret PinFault
        else ret BusFault
    | fault => ret fault
    end.

(** Modelled from the spec: [ErasePage], which is missing; the
    block-protection level now configured is [L]. *)
Definition ErasePage (L : Z) (polls : nat) (chip Address : Z) : M outcome :=
  Mutate L Address polls chip (SendCommandAndAddress chip MPE Address).

(** Modelled from the spec: [EraseSector], which is missing; as [ErasePage]
    with the sector-erase opcode. *)
Definition EraseSector (L : Z) (polls : nat) (chip Address : Z) : M outcome :=
  Mutate L Address polls chip (SendCommandAndAddress chip MSE Address).

(** Modelled from the spec: [EraseChip], which is missing; "for chip erase,
    validate that the entire array is unprotected", opcode only. *)
Definition EraseChip (L : Z) (polls : nat) (chip : Z) : M outcome :=
  Mutate L MEMSIZE polls chip (SendCommand chip MCE).

(** Modelled from the spec: the payload of one page-write transaction. *)
Fixpoint SendBytes (bytes : list Z) : M Z :=
  match bytes with
  | [] => ret MEMSUCC
  | b :: rest => bail_if SendByte b ;; SendBytes rest
  end.

(** Modelled from the spec: the chunks of the missing [WriteData]; "one
    page-write transaction per chunk, each chunk preceded by its own
    WriteEnable and followed by a busy-poll to completion".  A chunk ends
    at the page boundary; [chunks] bounds their number. *)
Fixpoint WriteChunks (chunks : nat) (L : Z) (polls : nat) (chip Address : Z)
    (bytes : list Z) : M outcome :=
  match chunks, bytes with
  | _, [] => ret Done
  | O, _ => ret Done
  | S chunks', _ =>
      let room := Z.to_nat (PAGE_SIZE - Address mod PAGE_SIZE) in
      let now := firstn room bytes in
      let later := skipn room bytes in
      r <- Mutate L Address polls chip
             (bail_if SendCommandAndAddress chip MWRITE Address ;; SendBytes now) ;;
      match r with
      | Done => WriteChunks chunks' L polls chip (Address + Z.of_nat room) later
      | fault => ret fault
      end
  end.

(** Modelled from the spec: [WriteData], which is missing; "validate
    protection for the full target range; split the payload at page
    boundaries". *)
Definition WriteData (L : Z) (polls : nat) (chip Address : Z) (bytes : list Z) : M outcome :=
  if isProtected L (Address + Z.max 0 (Z.of_nat (length bytes) - 1))
  then ret ProtectionViolation
  else WriteChunks (length bytes) L polls chip Address bytes.

(** * Properties *)

(** ** Arithmetic of the integer types and of the port registers *)

Lemma to_uint8_range (v : Z) : 0 <= to_uint8 v < 256.
Proof. unfold to_uint8, to_unsigned. apply Z.mod_pos_bound. reflexivity. Qed.

Lemma to_uint8_testbit (v i : Z) :
  0 <= i < 8 -> Z.testbit (to_uint8 v) i = Z.testbit v i.
Proof.
  intros Hi. unfold to_uint8, to_unsigned.
  rewrite Z.mod_pow2_bits_low; [reflexivity | lia].
Qed.

Lemma to_short_byte (v : Z) : to_short (Z.land v 0xFF) = Z.land v 0xFF.
Proof.
  assert (H : 0 <= Z.land v 0xFF < 256).
  { change 0xFF with (Z.ones 8). rewrite Z.land_ones by lia.
    apply Z.mod_pos_bound. reflexivity. }
  unfold to_short, to_signed. rewrite Z.mod_small by (simpl; lia).
  destruct (Z.ltb_spec (Z.land v 255) (2 ^ (16 - 1))) as [_ | Hge];
    [reflexivity | simpl in Hge; lia].
Qed.

Lemma mask_test (v pin : Z) :
  0 <= pin -> (Z.land v (Z.shiftl 1 pin) =? 0) = negb (Z.testbit v pin).
Proof.
  intros Hp.
  destruct (Z.testbit v pin) eqn:Hb; simpl.
  - apply Z.eqb_neq. intros H0.
    assert (Ht : Z.testbit (Z.land v (Z.shiftl 1 pin)) pin = true).
    { rewrite Z.land_spec, Hb, Z.shiftl_spec by lia.
      rewrite Z.sub_diag. reflexivity. }
    rewrite H0, Z.bits_0 in Ht. discriminate.
  - apply Z.eqb_eq. apply Z.bits_inj'. intros n Hn.
    rewrite Z.land_spec, Z.bits_0, Z.shiftl_spec by lia.
    destruct (Z.eq_dec n pin) as [-> | Hne].
    + rewrite Hb. reflexivity.
    + replace (Z.testbit 1 (n - pin)) with false; [apply andb_false_r |].
      destruct (Z.ltb_spec n pin) as [Hlt | Hge].
      * rewrite Z.testbit_neg_r by lia. reflexivity.
      * symmetry. change 1 with (Z.ones 1).
        apply Z.ones_spec_high. lia.
Qed.

Lemma port_set_bit (port pin : Z) :
  0 <= pin < 8 -> Z.testbit (to_uint8 (port_set port pin)) pin = true.
Proof.
  intros Hp. rewrite to_uint8_testbit by lia. unfold port_set.
  rewrite Z.lor_spec, Z.shiftl_spec, Z.sub_diag by lia.
  apply orb_true_r.
Qed.

Lemma port_clear_bit (port pin : Z) :
  0 <= pin < 8 -> Z.testbit (to_uint8 (port_clear port pin)) pin = false.
Proof.
  intros Hp. rewrite to_uint8_testbit by lia. unfold port_clear.
  rewrite Z.land_spec, Z.lnot_spec, Z.shiftl_spec, Z.sub_diag by lia.
  apply andb_false_r.
Qed.

Lemma GetCS_range (chip : Z) : 0 <= GetCS chip < 4.
Proof.
  unfold GetCS, CS0, CS1, CS2, CS3.
  destruct chip as [| [[|[]|]|[|[]|]|] |]; lia.
Qed.

Lemma GetWP_range (chip : Z) : 4 <= GetWP chip < 8.
Proof.
  unfold GetWP, WP0, WP1, WP2, WP3.
  destruct chip as [| [[|[]|]|[|[]|]|] |]; lia.
Qed.

Lemma GetCS_out_of_range (chip : Z) : chip < 0 \/ 3 < chip -> GetCS chip = CS0.
Proof.
  intros H. unfold GetCS.
  destruct chip as [| [[|[]|]|[|[]|]|] |]; try reflexivity; lia.
Qed.

Lemma GetWP_out_of_range (chip : Z) : chip < 0 \/ 3 < chip -> GetWP chip = WP0.
Proof.
  intros H. unfold GetWP.
  destruct chip as [| [[|[]|]|[|[]|]|] |]; try reflexivity; lia.
Qed.

(** ** What one call of a primitive does to the world *)

Lemma SendByte_run (byte : Z) (w : world D) :
  exists rc d,
    SendByte byte w =
      (if rc =? 0 then MEMSUCC else MEMFAIL,
       mkWorld (ContPort w) (ContDDR w) d (trace w ++ [EvTx byte rc])).
Proof.
  unfold SendByte, bind, spi_write, ret, log.
  destruct (SPI_Write_Byte hw byte (dev w)) as [rc d].
  exists rc, d. destruct (rc =? 0); reflexivity.
Qed.

Lemma ReadByte_run (w : world D) :
  exists rc b d,
    ReadByte w =
      ((if rc =? 0 then MEMSUCC else MEMFAIL, b),
       mkWorld (ContPort w) (ContDDR w) d (trace w ++ [EvRx (SPIFALSE hw) rc b])).
Proof.
  unfold ReadByte, bind, spi_read, ret, log.
  destruct (SPI_Read_Byte hw (SPIFALSE hw) (dev w)) as [[rc b] d].
  exists rc, b, d. destruct (rc =? 0); reflexivity.
Qed.

Lemma SetCS_run (chip : Z) (w : world D) :
  let high := to_uint8 (port_set (ContPort w) (GetCS chip)) in
  exists v d,
    SetCS chip w =
      (if Z.testbit v (GetCS chip) then MEMSUCC else MEMFAIL,
       mkWorld high (ContDDR w) d (trace w ++ [EvPort high; EvPin v])).
Proof.
  unfold SetCS, bind, get_ContPort, set_ContPort, _NOP, get_RContPort, ret, log.
  cbn [ContPort ContDDR dev trace].
  destruct (PINA hw _ _ _) as [v d].
  exists (to_uint8 v), d.
  rewrite mask_test by apply GetCS_range.
  rewrite <- app_assoc.
  destruct (Z.testbit (to_uint8 v) (GetCS chip)); reflexivity.
Qed.

Lemma ClearCS_run (chip : Z) (w : world D) :
  let low := to_uint8 (port_clear (ContPort w) (GetCS chip)) in
  exists v d,
    ClearCS chip w =
      (if Z.testbit v (GetCS chip) then MEMFAIL else MEMSUCC,
       mkWorld low (ContDDR w) d (trace w ++ [EvPort low; EvPin v])).
Proof.
  unfold ClearCS, bind, get_ContPort, set_ContPort, _NOP, get_RContPort, ret, log.
  cbn [ContPort ContDDR dev trace].
  destruct (PINA hw _ _ _) as [v d].
  exists (to_uint8 v), d.
  rewrite mask_test by apply GetCS_range.
  rewrite <- app_assoc.
  destruct (Z.testbit (to_uint8 v) (GetCS chip)); reflexivity.
Qed.

Lemma SetWP_run (chip : Z) (w : world D) :
  let high := to_uint8 (port_set (ContPort w) (GetWP chip)) in
  exists v d,
    SetWP chip w =
      (if Z.testbit v (GetWP chip) then MEMSUCC else MEMFAIL,
       mkWorld high (ContDDR w) d (trace w ++ [EvPort high; EvPin v])).
Proof.
  unfold SetWP, bind, get_ContPort, set_ContPort, _NOP, get_RContPort, ret, log.
  cbn [ContPort ContDDR dev trace].
  destruct (PINA hw _ _ _) as [v d].
  exists (to_uint8 v), d.
  rewrite mask_test by (pose proof (GetWP_range chip); lia).
  rewrite <- app_assoc.
  destruct (Z.testbit (to_uint8 v) (GetWP chip)); reflexivity.
Qed.

Lemma ClearWP_run (chip : Z) (w : world D) :
  let low := to_uint8 (port_clear (ContPort w) (GetWP chip)) in
  exists v d,
    ClearWP chip w =
      (if Z.testbit v (GetWP chip) then MEMFAIL else MEMSUCC,
       mkWorld low (ContDDR w) d (trace w ++ [EvPort low; EvPin v])).
Proof.
  unfold ClearWP, bind, get_ContPort, set_ContPort, _NOP, get_RContPort, ret, log.
  cbn [ContPort ContDDR dev trace].
  destruct (PINA hw _ _ _) as [v d].
  exists (to_uint8 v), d.
  rewrite mask_test by (pose proof (GetWP_range chip); lia).
  rewrite <- app_assoc.
  destruct (Z.testbit (to_uint8 v) (GetWP chip)); reflexivity.
Qed.

(** Decides the tests of a status that is known. *)
Ltac settle_status :=
  repeat (progress (cbv beta iota;
                    change (MEMSUCC =? 0) with true;
                    change (MEMFAIL =? 0) with false));
  cbn [ContPort ContDDR dev trace fst snd].

(** Split on a pin read-back, if the status it decides is looked at. *)
Ltac split_if_tested t :=
  lazymatch goal with
  | |- context [t] => destruct t eqn:?
  | _ => idtac
  end.

(** One step of symbolic execution: replace the next call of a primitive
    by its effect and split on its status. *)
Ltac next_call :=
  settle_status;
  lazymatch goal with
  | |- context [SendByte ?b ?w] =>
      let rc := fresh "rc" in let d := fresh "d" in let E := fresh "E" in
      destruct (SendByte_run b w) as (rc & d & E); rewrite E; clear E;
      destruct (Z.eqb_spec rc 0); [subst rc |]
  | |- context [ReadByte ?w] =>
      let rc := fresh "rc" in let b := fresh "b" in
      let d := fresh "d" in let E := fresh "E" in
      destruct (ReadByte_run w) as (rc & b & d & E); rewrite E; clear E;
      destruct (Z.eqb_spec rc 0); [subst rc |]
  | |- context [SetCS ?c ?w] =>
      let v := fresh "pin" in let d := fresh "d" in let E := fresh "E" in
      destruct (SetCS_run c w) as (v & d & E); rewrite E; clear E;
      settle_status; split_if_tested (Z.testbit v (GetCS c))
  | |- context [ClearCS ?c ?w] =>
      let v := fresh "pin" in let d := fresh "d" in let E := fresh "E" in
      destruct (ClearCS_run c w) as (v & d & E); rewrite E; clear E;
      settle_status; split_if_tested (Z.testbit v (GetCS c))
  | |- context [SetWP ?c ?w] =>
      let v := fresh "pin" in let d := fresh "d" in let E := fresh "E" in
      destruct (SetWP_run c w) as (v & d & E); rewrite E; clear E;
      settle_status; split_if_tested (Z.testbit v (GetWP c))
  | |- context [ClearWP ?c ?w] =>
      let v := fresh "pin" in let d := fresh "d" in let E := fresh "E" in
      destruct (ClearWP_run c w) as (v & d & E); rewrite E; clear E;
      settle_status; split_if_tested (Z.testbit v (GetWP c))
  end;
  settle_status.

Ltac open_driver :=
  cbv beta zeta delta
    [ReadData WakeMem SleepMem ReadMemStatus WriteMemStatus CheckWIP
     SendCommandAndAddress SendCommand SendAddress bind ret].

(** The last event of a trace that is known in full. *)
Ltac last_event H :=
  rewrite <- ?app_assoc in H; cbn [app] in H;
  apply app_inv_head in H;
  apply (f_equal (fun l => last l (EvPin 0))) in H;
  rewrite last_last in H; cbn [last] in H.

(** Two traces that start alike and differ later are different. *)
Ltac trace_clash H :=
  rewrite <- ?app_assoc in H; cbn [app] in H;
  apply app_inv_head in H; inversion H; subst;
  try congruence; try lia.

(** ** The read loop *)

Lemma tx_bytes_app (l1 l2 : list event) :
  tx_bytes (l1 ++ l2) = tx_bytes l1 ++ tx_bytes l2.
Proof.
  induction l1 as [| e l1 IH]; [reflexivity |].
  destruct e; cbn [app tx_bytes]; rewrite IH; reflexivity.
Qed.

Lemma rx_count_app (l1 l2 : list event) :
  rx_count (l1 ++ l2) = (rx_count l1 + rx_count l2)%nat.
Proof.
  induction l1 as [| e l1 IH]; [reflexivity |].
  destruct e; cbn [app rx_count]; rewrite IH; reflexivity.
Qed.

Lemma port_writes_app (l1 l2 : list event) :
  port_writes (l1 ++ l2) = port_writes l1 ++ port_writes l2.
Proof.
  induction l1 as [| e l1 IH]; [reflexivity |].
  destruct e; cbn [app port_writes]; rewrite IH; reflexivity.
Qed.

Lemma receptions_only (flag : Z) (bs : list Z) :
  tx_bytes (map (EvRx flag 0) bs) = [] /\
  port_writes (map (EvRx flag 0) bs) = [] /\
  rx_count (map (EvRx flag 0) bs) = length bs.
Proof.
  induction bs as [| b bs (IH1 & IH2 & IH3)]; [repeat split |].
  cbn [map tx_bytes port_writes rx_count length].
  rewrite IH1, IH2, IH3. repeat split.
Qed.

Lemma fill_outside (bs : list Z) :
  forall data count i,
    i < count \/ count + Z.of_nat (length bs) <= i ->
    fill data count bs i = data i.
Proof.
  induction bs as [| b bs IH]; intros data count i Hi; [reflexivity |].
  cbn [fill]. cbn [length] in Hi. rewrite IH by lia.
  unfold store. destruct (Z.eqb_spec i count); [lia | reflexivity].
Qed.

Lemma fill_inside (bs : list Z) :
  forall data count i,
    count <= i < count + Z.of_nat (length bs) ->
    fill data count bs i = nth (Z.to_nat (i - count)) bs 0.
Proof.
  induction bs as [| b bs IH]; intros data count i Hi;
    cbn [length] in Hi; [lia |].
  cbn [fill]. destruct (Z.eq_dec i count) as [-> | Hne].
  - rewrite fill_outside by lia. unfold store.
    rewrite Z.eqb_refl, Z.sub_diag. reflexivity.
  - rewrite IH by lia.
    replace (Z.to_nat (i - count)) with (S (Z.to_nat (i - (count + 1)))) by lia.
    reflexivity.
Qed.

(** The loop receives bytes until one reception fails or [n] are in: it
    touches no register, stores each byte it received, and stops at the
    first failure. *)
Lemma ReadData_loop_run (n : nat) :
  forall (count : Z) (data : Z -> Z) (w : world D),
  exists r bs tail d,
    ReadData_loop n count data w =
      ((r, fill data count bs),
       mkWorld (ContPort w) (ContDDR w) d
               (trace w ++ map (EvRx (SPIFALSE hw) 0) bs ++ tail)) /\
    ((r = MEMSUCC /\ tail = [] /\ length bs = n) \/
     (r = MEMFAIL /\ (length bs < n)%nat /\
      exists rc b, rc <> 0 /\ tail = [EvRx (SPIFALSE hw) rc b])).
Proof.
  induction n as [| n IH]; intros count data w.
  - exists MEMSUCC, [], [], (dev w). split; [| left; repeat split].
    cbn. rewrite app_nil_r. destruct w; reflexivity.
  - cbn [ReadData_loop]. unfold bind at 1.
    destruct (ReadByte_run w) as (rc & b & d & E). rewrite E. clear E.
    destruct (Z.eqb_spec rc 0) as [-> | Hrc].
    + change (MEMSUCC =? 0) with true. cbv iota.
      destruct (IH (count + 1) (store data count b)
                  (mkWorld (ContPort w) (ContDDR w) d
                     (trace w ++ [EvRx (SPIFALSE hw) 0 b])))
        as (r & bs & tail & d' & E & Hcases).
      rewrite E. cbn [ContPort ContDDR trace].
      exists r, (b :: bs), tail, d'. split.
      * cbn [fill map]. rewrite <- app_assoc. reflexivity.
      * cbn [length].
        destruct Hcases as [(-> & -> & Hlen) | (-> & Hlen & Hfault)];
          [left | right]; repeat split; auto; lia.
    + change (MEMFAIL =? 0) with false. cbv iota.
      exists MEMFAIL, [], [EvRx (SPIFALSE hw) rc b], d.
      split; [reflexivity |]. right. repeat split; [cbn; lia |].
      exists rc, b. split; [assumption | reflexivity].
Qed.

(** The next call is the read loop: replace it by what it did. *)
Ltac run_loop :=
  lazymatch goal with
  | |- context [ReadData_loop ?n ?c ?data ?w] =>
      let r := fresh "r" in let bs := fresh "bs" in
      let tail := fresh "tail" in let d := fresh "d" in
      let E := fresh "E" in let Hlen := fresh "Hlen" in
      let rc := fresh "rc" in let b := fresh "b" in
      let Hrc := fresh "Hrc" in
      destruct (ReadData_loop_run n c data w)
        as (r & bs & tail & d & E &
            [(-> & -> & Hlen) | (-> & Hlen & rc & b & Hrc & ->)]);
      rewrite E; clear E; settle_status
  end.

(** ** The status register *)

(** C10: ReadMemStatus stores into the caller's status only when it returns
    MEMSUCC, and then stores the byte it received; when it returns MEMFAIL
    the caller's status is what it was. *)
Theorem ReadMemStatus_failure_keeps_status (chip status : Z) (w : world D) :
  let r := fst (fst (ReadMemStatus chip status w)) in
  let status' := snd (fst (ReadMemStatus chip status w)) in
  let w' := snd (ReadMemStatus chip status w) in
  (r = MEMSUCC \/ r = MEMFAIL) /\
  (r = MEMFAIL -> status' = status) /\
  (r = MEMSUCC ->
     exists pre b, trace w' = trace w ++ pre ++ [EvRx (SPIFALSE hw) 0 b] /\
                   status' = b) /\
  (r = MEMFAIL <->
     exists pre e, trace w' = trace w ++ pre ++ [e] /\ faulted e = true).
Proof.
  cbv zeta.
  destruct (ReadMemStatus chip status w) as [[r st] w'] eqn:E. cbn [fst snd].
  revert E. open_driver. repeat next_call.
  all: intros E; injection E as <- <- <-; cbn [trace].
  all: rewrite <- ?app_assoc; cbn [app].
  all: (split; [auto |]); (split; [first [discriminate | reflexivity] |]).
  all: (split; [first [discriminate | idtac] | split]); try discriminate.
  all: try (intros _; reflexivity).
  all: try (intros _; eexists [_; _; _], _; split; reflexivity).
  all: try (intros _; eexists [_; _; _], _; split; [reflexivity |];
            cbn; apply negb_true_iff, Z.eqb_neq; assumption).
  all: try (intros _; eexists [_; _], _; split; [reflexivity |];
            cbn; apply negb_true_iff, Z.eqb_neq; assumption).
  all: intros (pre & e & Ht & He); exfalso.
  all: last_event Ht; subst e; discriminate He.
Qed.

(** ** The bytes of an address *)

Lemma address_byte (Address k i : Z) :
  0 <= k -> 0 <= i < 8 ->
  Z.testbit (Z.land (Z.shiftr Address k) 0xFF) i = Z.testbit Address (k + i).
Proof.
  intros Hk Hi. change 0xFF with (Z.ones 8).
  rewrite Z.land_spec, Z.shiftr_spec, Z.ones_spec_low by lia.
  rewrite andb_true_r. f_equal. lia.
Qed.

Lemma last_behind (l : list event) (a : event) (t : list event) (d : event) :
  last (l ++ a :: t) d = last (a :: t) d.
Proof.
  induction l as [| e l IH]; [reflexivity |].
  cbn [app]. rewrite <- IH. cbn [last].
  destruct (l ++ a :: t) eqn:El; [| reflexivity].
  destruct l; discriminate El.
Qed.

(** ** Reading the trace of a run *)

Lemma last_cons_app (e : event) (l : list event) (a : event) (t : list event)
    (d : event) :
  last (e :: l ++ a :: t) d = last (a :: t) d.
Proof. apply (last_behind (e :: l)). Qed.

Lemma last_cons_cons (e x : event) (l : list event) (d : event) :
  last (e :: x :: l) d = last (x :: l) d.
Proof. reflexivity. Qed.

Lemma faulted_tx (byte rc : Z) : rc <> 0 -> faulted (EvTx byte rc) = true.
Proof. intros H. cbn. apply negb_true_iff, Z.eqb_neq, H. Qed.

Lemma faulted_rx (flag rc byte : Z) : rc <> 0 -> faulted (EvRx flag rc byte) = true.
Proof. intros H. cbn. apply negb_true_iff, Z.eqb_neq, H. Qed.

(** Simplifies [last], [port_writes] and [faulted] on the trace of a run. *)
Ltac read_trace :=
  repeat first [rewrite last_cons_cons | rewrite last_cons_app];
  cbn [last port_writes];
  rewrite ?port_writes_app;
  rewrite ?(proj1 (proj2 (receptions_only _ _)));
  cbn [port_writes app];
  rewrite ?faulted_tx, ?faulted_rx by assumption.

(** ** SendCommand *)

(** SendCommand drives chip-select low, reads the pin back and transmits
    the command; its status is that of the transmission alone, whatever
    the pin read back, and it leaves chip-select driven low. *)
Lemma SendCommand_status_is_the_transmission (chip Command : Z) (w : world D) :
  let low := to_uint8 (port_clear (ContPort w) (GetCS chip)) in
  exists p rc d,
    SendCommand chip Command w =
      (if rc =? 0 then MEMSUCC else MEMFAIL,
       mkWorld low (ContDDR w) d
               (trace w ++ [EvPort low; EvPin p; EvTx Command rc])).
Proof.
  cbv zeta. unfold SendCommand, bind, ret.
  destruct (ClearCS_run chip w) as (p & d & E). rewrite E. clear E.
  destruct (SendByte_run Command
              (mkWorld (to_uint8 (port_clear (ContPort w) (GetCS chip)))
                 (ContDDR w) d
                 (trace w ++ [EvPort (to_uint8 (port_clear (ContPort w) (GetCS chip)));
                              EvPin p])))
    as (rc & d' & E).
  rewrite E. clear E. cbn [ContPort ContDDR trace].
  exists p, rc, d'. rewrite <- app_assoc.
  destruct (Z.eqb_spec rc 0);
    [change (MEMSUCC =? 0) with true | change (MEMFAIL =? 0) with false];
    reflexivity.
Qed.

(** ** Chip indices outside 0..3 *)

(** C2, as the code has it: for a chip index outside 0..3, InitMem fails
    and CloseMem returns without touching the hardware, while the pin
    lookups fall back on the lines of chip 0, so that every other operation
    does to chip 0 what it was asked to do to the chip named. *)
Theorem out_of_range_chip_is_chip_0 (chip : Z) (w : world D) :
  chip < 0 \/ 3 < chip ->
  GetCS chip = CS0 /\ GetWP chip = WP0 /\
  InitMem chip w = (MEMFAIL, w) /\
  CloseMem chip w = (tt, w) /\
  (forall Address NumBytes data,
     ReadData chip Address NumBytes data w = ReadData 0 Address NumBytes data w) /\
  WakeMem chip w = WakeMem 0 w /\
  SleepMem chip w = SleepMem 0 w /\
  (forall status, ReadMemStatus chip status w = ReadMemStatus 0 status w) /\
  (forall status, WriteMemStatus chip status w = WriteMemStatus 0 status w) /\
  CheckWIP chip w = CheckWIP 0 w.
Proof.
  intros Hchip.
  pose proof (GetCS_out_of_range chip Hchip) as Hcs.
  pose proof (GetWP_out_of_range chip Hchip) as Hwp.
  split; [exact Hcs |]. split; [exact Hwp |].
  split; [| split].
  - unfold InitMem.
    destruct chip as [| [[|[]|]|[|[]|]|] |]; try reflexivity; lia.
  - unfold CloseMem.
    destruct chip as [| [[|[]|]|[|[]|]|] |]; try reflexivity; lia.
  - unfold ReadData, WakeMem, SleepMem, ReadMemStatus, WriteMemStatus, CheckWIP,
      ReadMemStatus, SendCommandAndAddress, SendCommand, SendAddress,
      SetCS, ClearCS, SetWP, ClearWP.
    rewrite Hcs, Hwp. repeat split.
Qed.

(** ** GetPage *)

(** The status of GetPage is right where the quotient fits the 16-bit int:
    MEMSUCC for an address inside the array, MEMFAIL from 0x20000 up to
    0x7FFFFF. *)
Lemma GetPage_status (Address caller : Z) :
  (0 <= Address < 0x20000 -> fst (GetPage Address caller) = MEMSUCC) /\
  (0x20000 <= Address < 0x800000 -> fst (GetPage Address caller) = MEMFAIL).
Proof.
  unfold GetPage, to_int, to_signed, PAGE_SIZE. cbv zeta.
  split; intros H.
  - assert (Hq : 0 <= Z.quot Address 256 < 512).
    { rewrite Z.quot_div_nonneg by lia.
      split; [apply Z.div_pos; lia | apply Z.div_lt_upper_bound; lia]. }
    rewrite Z.mod_small by (simpl; lia).
    destruct (Z.ltb_spec (Address ÷ 256) (2 ^ (16 - 1))) as [_ | Hge];
      [| simpl in Hge; lia].
    destruct (Z.gtb_spec (Address ÷ 256) 511); [lia | reflexivity].
  - assert (Hq : 512 <= Z.quot Address 256 < 32768).
    { rewrite Z.quot_div_nonneg by lia.
      split; [apply Z.div_le_lower_bound; lia | apply Z.div_lt_upper_bound; lia]. }
    rewrite Z.mod_small by (simpl; lia).
    destruct (Z.ltb_spec (Address ÷ 256) (2 ^ (16 - 1))) as [_ | Hge];
      [| simpl in Hge; lia].
    destruct (Z.gtb_spec (Address ÷ 256) 511); [reflexivity | lia].
Qed.

(** C1: the code does not do what the specification says.  GetPage never stores
    through the pointer it is given: the caller's int is on return what it
    was on entry, for every address; at address 0x1234 (page 0x12) a
    caller's 0 is still 0.  And with a 16-bit int the quotient of a large
    address wraps: 0x1000000 lies beyond the array and is accepted. *)
Theorem GetPage_never_stores_the_page :
  (forall Address caller, snd (GetPage Address caller) = caller) /\
  GetPage 0x1234 0 = (MEMSUCC, 0) /\
  GetPage 0x1000000 0 = (MEMSUCC, 0).
Proof.
  split; [| split; reflexivity].
  intros Address caller. unfold GetPage. cbv zeta.
  destruct (to_int (Address ÷ PAGE_SIZE) >? 511); reflexivity.
Qed.

(** ** Protection policy *)

(** C9: a target address is protected exactly when it lies above the bound
    of the level, the bounds being those of the header; a page erase, a
    sector erase or a write whose target is protected, and a chip erase
    when the top of the array is protected, is refused with the world as
    it was: nothing is transmitted, so write-enable is not sent. *)
Theorem protected_target_is_refused (L Address : Z) (polls : nat) (chip : Z)
    (bytes : list Z) (w : world D) :
  (isProtected L Address = true <-> Address > unprotectedBound L) /\
  (unprotectedBound 0 = 0x01FFFF /\ unprotectedBound 1 = 0x017FFF /\
   unprotectedBound 2 = 0x00FFFF /\ unprotectedBound 3 = 0x000000) /\
  (isProtected L Address = true ->
     ErasePage L polls chip Address w = (ProtectionViolation, w) /\
     EraseSector L polls chip Address w = (ProtectionViolation, w) /\
     WriteData L polls chip Address bytes w = (ProtectionViolation, w)) /\
  ((exists i, 0 <= i < Z.of_nat (length bytes) /\
              isProtected L (Address + i) = true) ->
     WriteData L polls chip Address bytes w = (ProtectionViolation, w)) /\
  (isProtected L MEMSIZE = true ->
     EraseChip L polls chip w = (ProtectionViolation, w)) /\
  (L <> 0 -> EraseChip L polls chip w = (ProtectionViolation, w)).
Proof.
  assert (Hup : forall a b, isProtected L a = true -> a <= b ->
                            isProtected L b = true).
  { unfold isProtected. intros a b Ha Hab.
    apply Z.gtb_lt in Ha. apply Z.gtb_lt. lia. }
  split; [| split; [| split; [| split; [| split]]]].
  - unfold isProtected. rewrite Z.gtb_lt. lia.
  - repeat split.
  - intros Hprot. unfold ErasePage, EraseSector, WriteData, Mutate.
    rewrite Hprot, (Hup Address _ Hprot) by lia. repeat split.
  - intros (i & Hi & Hprot). unfold WriteData.
    rewrite (Hup (Address + i) _ Hprot) by lia. reflexivity.
  - intros Hprot. unfold EraseChip, Mutate. rewrite Hprot. reflexivity.
  - intros HL. unfold EraseChip, Mutate, isProtected.
    replace (MEMSIZE >? unprotectedBound L) with true; [reflexivity |].
    symmetry. apply Z.gtb_lt. unfold MEMSIZE, unprotectedBound, BP01, BP10, BP11.
    destruct L as [| [[]|[]|] |]; try lia.
Qed.

(** * Further properties of the driver *)

(** ** Bits of the port registers *)

Lemma bit_of_one (k : Z) : Z.testbit 1 k = (k =? 0).
Proof. destruct k as [| [p | p |] | p]; reflexivity. Qed.

Lemma to_uint8_bits (v n : Z) :
  0 <= n -> Z.testbit (to_uint8 v) n = (n <? 8) && Z.testbit v n.
Proof.
  intros Hn. unfold to_uint8, to_unsigned.
  destruct (Z.ltb_spec n 8) as [Hlt | Hge]; cbn [andb].
  - apply Z.mod_pow2_bits_low. lia.
  - apply Z.mod_pow2_bits_high. lia.
Qed.

Lemma to_uint8_small (v : Z) : 0 <= v < 256 -> to_uint8 v = v.
Proof. intros H. unfold to_uint8, to_unsigned. apply Z.mod_small. simpl. lia. Qed.

Lemma port_set_bits (p pin n : Z) :
  0 <= pin -> 0 <= n ->
  Z.testbit (to_uint8 (port_set p pin)) n = (n <? 8) && ((n =? pin) || Z.testbit p n).
Proof.
  intros Hpin Hn. rewrite to_uint8_bits by lia. unfold port_set.
  rewrite Z.lor_spec, Z.shiftl_spec, bit_of_one by lia.
  f_equal. rewrite orb_comm. f_equal.
  destruct (Z.eqb_spec (n - pin) 0), (Z.eqb_spec n pin); lia || reflexivity.
Qed.

Lemma port_clear_bits (p pin n : Z) :
  0 <= pin -> 0 <= n ->
  Z.testbit (to_uint8 (port_clear p pin)) n =
    (n <? 8) && (negb (n =? pin) && Z.testbit p n).
Proof.
  intros Hpin Hn. rewrite to_uint8_bits by lia. unfold port_clear.
  rewrite Z.land_spec, Z.lnot_spec, Z.shiftl_spec, bit_of_one by lia.
  f_equal. rewrite andb_comm. f_equal.
  destruct (Z.eqb_spec (n - pin) 0), (Z.eqb_spec n pin); lia || reflexivity.
Qed.

Lemma port_set_other (p pin i : Z) :
  0 <= pin -> 0 <= i < 8 -> i <> pin ->
  Z.testbit (to_uint8 (port_set p pin)) i = Z.testbit p i.
Proof.
  intros Hpin Hi Hne. rewrite port_set_bits by lia.
  destruct (Z.ltb_spec i 8); [| lia].
  destruct (Z.eqb_spec i pin); [lia | reflexivity].
Qed.

Lemma port_clear_other (p pin i : Z) :
  0 <= pin -> 0 <= i < 8 -> i <> pin ->
  Z.testbit (to_uint8 (port_clear p pin)) i = Z.testbit p i.
Proof.
  intros Hpin Hi Hne. rewrite port_clear_bits by lia.
  destruct (Z.ltb_spec i 8); [| lia].
  destruct (Z.eqb_spec i pin); [lia | reflexivity].
Qed.

(** A register value is what it is bit by bit; an 8-bit one has no bit
    from 8 up. *)
Lemma uint8_bits_inj (a b : Z) :
  0 <= a < 256 -> 0 <= b < 256 ->
  (forall n, 0 <= n < 8 -> Z.testbit a n = Z.testbit b n) -> a = b.
Proof.
  intros Ha Hb H. apply Z.bits_inj'. intros n Hn.
  rewrite <- (to_uint8_small a Ha), <- (to_uint8_small b Hb).
  rewrite !to_uint8_bits by lia.
  destruct (Z.ltb_spec n 8); [| reflexivity]. cbn [andb]. apply H. lia.
Qed.

(** Driving a line low and then high again restores a register in which
    the line was high; driving it low twice is driving it low once. *)
Lemma port_restored (p pin : Z) :
  0 <= p < 256 -> 0 <= pin < 8 -> Z.testbit p pin = true ->
  to_uint8 (port_set (to_uint8 (port_clear p pin)) pin) = p.
Proof.
  intros Hp Hpin Hbit.
  apply uint8_bits_inj; [apply to_uint8_range | assumption |].
  intros n Hn. rewrite port_set_bits, port_clear_bits by lia.
  destruct (Z.ltb_spec n 8); [| lia]. cbn [andb].
  destruct (Z.eqb_spec n pin) as [-> | Hne]; cbn [negb orb andb];
    [symmetry; assumption | reflexivity].
Qed.

Lemma port_clear_twice (p pin : Z) :
  0 <= pin < 8 ->
  to_uint8 (port_clear (to_uint8 (port_clear p pin)) pin) =
  to_uint8 (port_clear p pin).
Proof.
  intros Hpin.
  apply uint8_bits_inj; [apply to_uint8_range | apply to_uint8_range |].
  intros n Hn. rewrite !port_clear_bits by lia.
  destruct (Z.ltb_spec n 8); [| lia]. cbn [andb].
  destruct (Z.eqb_spec n pin); cbn [negb andb]; reflexivity.
Qed.

(** ** The lines of the four chips *)

(** The four chips have four distinct chip-select lines and four distinct
    write-protect lines, and no chip-select line is a write-protect line. *)
Lemma chip_lines_are_distinct (a b : Z) :
  0 <= a <= 3 -> 0 <= b <= 3 ->
  (GetCS a = GetCS b <-> a = b) /\
  (GetWP a = GetWP b <-> a = b) /\
  (forall c, GetCS a <> GetWP c).
Proof.
  intros Ha Hb.
  assert (Ea : a = 0 \/ a = 1 \/ a = 2 \/ a = 3) by lia.
  assert (Eb : b = 0 \/ b = 1 \/ b = 2 \/ b = 3) by lia.
  split; [| split].
  - destruct Ea as [-> | [-> | [-> | ->]]], Eb as [-> | [-> | [-> | ->]]];
      cbn; unfold CS0, CS1, CS2, CS3; split; intros H; lia.
  - destruct Ea as [-> | [-> | [-> | ->]]], Eb as [-> | [-> | [-> | ->]]];
      cbn; unfold WP0, WP1, WP2, WP3; split; intros H; lia.
  - intros c. pose proof (GetCS_range a). pose proof (GetWP_range c). lia.
Qed.

(** ** The four pin operations *)

(** SetCS, ClearCS, SetWP and ClearWP write the output register once and
    read the input register once.  They change the one bit of the output
    register that belongs to the line, leave the other seven and the
    direction register as they were, and return MEMSUCC exactly when the
    bit read back has the level driven. *)
Lemma pin_operation_changes_one_line (chip : Z) (w : world D) :
  let changes (op : Z -> M Z) (pin : Z) (level : bool) :=
    let r := fst (op chip w) in
    let w' := snd (op chip w) in
    ContDDR w' = ContDDR w /\
    Z.testbit (ContPort w') pin = level /\
    (forall i, 0 <= i < 8 -> i <> pin ->
       Z.testbit (ContPort w') i = Z.testbit (ContPort w) i) /\
    exists v, trace w' = trace w ++ [EvPort (ContPort w'); EvPin v] /\
              (r = MEMSUCC <-> Z.testbit v pin = level) /\
              (r = MEMFAIL <-> Z.testbit v pin = negb level) in
  changes SetCS (GetCS chip) true /\
  changes ClearCS (GetCS chip) false /\
  changes SetWP (GetWP chip) true /\
  changes ClearWP (GetWP chip) false.
Proof.
  cbv zeta.
  pose proof (GetCS_range chip) as Hcs. pose proof (GetWP_range chip) as Hwp.
  split; [| split; [| split]].
  - destruct (SetCS_run chip w) as (v & d & E). rewrite E. cbn [fst snd ContPort ContDDR trace].
    split; [reflexivity |]. split; [apply port_set_bit; lia |].
    split; [intros i Hi Hne; apply port_set_other; lia |].
    exists v. split; [reflexivity |].
    destruct (Z.testbit v (GetCS chip)); cbn [negb];
      split; split; intros H; first [reflexivity | discriminate H].
  - destruct (ClearCS_run chip w) as (v & d & E). rewrite E. cbn [fst snd ContPort ContDDR trace].
    split; [reflexivity |]. split; [apply port_clear_bit; lia |].
    split; [intros i Hi Hne; apply port_clear_other; lia |].
    exists v. split; [reflexivity |].
    destruct (Z.testbit v (GetCS chip)); cbn [negb];
      split; split; intros H; first [reflexivity | discriminate H].
  - destruct (SetWP_run chip w) as (v & d & E). rewrite E. cbn [fst snd ContPort ContDDR trace].
    split; [reflexivity |]. split; [apply port_set_bit; lia |].
    split; [intros i Hi Hne; apply port_set_other; lia |].
    exists v. split; [reflexivity |].
    destruct (Z.testbit v (GetWP chip)); cbn [negb];
      split; split; intros H; first [reflexivity | discriminate H].
  - destruct (ClearWP_run chip w) as (v & d & E). rewrite E. cbn [fst snd ContPort ContDDR trace].
    split; [reflexivity |]. split; [apply port_clear_bit; lia |].
    split; [intros i Hi Hne; apply port_clear_other; lia |].
    exists v. split; [reflexivity |].
    destruct (Z.testbit v (GetWP chip)); cbn [negb];
      split; split; intros H; first [reflexivity | discriminate H].
Qed.

(** ** Min *)

(** Min returns the smaller of its two arguments: it is one of them, it is
    at most either, and the order of the arguments does not matter. *)
Lemma Min_is_the_minimum (num1 num2 : Z) :
  Min num1 num2 = Z.min num1 num2 /\
  Min num1 num2 <= num1 /\ Min num1 num2 <= num2 /\
  (Min num1 num2 = num1 \/ Min num1 num2 = num2) /\
  Min num1 num2 = Min num2 num1.
Proof.
  unfold Min.
  destruct (Z.ltb_spec num1 num2), (Z.ltb_spec num2 num1); lia.
Qed.

(** ** InitMem and CloseMem *)

Lemma InitMem_run (chip : Z) (w : world D) :
  0 <= chip <= 3 ->
  let d1 := to_uint8 (port_set (ContDDR w) (GetCS chip)) in
  let d2 := to_uint8 (port_set d1 (GetWP chip)) in
  InitMem chip w =
    (MEMSUCC, mkWorld (ContPort w) d2 (dev w) (trace w ++ [EvDDR d1; EvDDR d2])).
Proof.
  intros Hchip. cbv zeta.
  assert (E : chip = 0 \/ chip = 1 \/ chip = 2 \/ chip = 3) by lia.
  destruct E as [-> | [-> | [-> | ->]]];
    unfold InitMem, ddr_output, bind, ret, get_ContDDR, set_ContDDR, log;
    change (negb (WP_USED =? 0)) with false; cbn [ContPort ContDDR dev trace];
    rewrite <- app_assoc; reflexivity.
Qed.

Lemma CloseMem_run (chip : Z) (w : world D) :
  0 <= chip <= 3 ->
  let d1 := to_uint8 (port_clear (ContDDR w) (GetCS chip)) in
  let d2 := to_uint8 (port_clear d1 (GetWP chip)) in
  CloseMem chip w =
    (tt, mkWorld (ContPort w) d2 (dev w) (trace w ++ [EvDDR d1; EvDDR d2])).
Proof.
  intros Hchip. cbv zeta.
  assert (E : chip = 0 \/ chip = 1 \/ chip = 2 \/ chip = 3) by lia.
  destruct E as [-> | [-> | [-> | ->]]];
    unfold CloseMem, ddr_input, bind, ret, get_ContDDR, set_ContDDR, log;
    cbn [ContPort ContDDR dev trace];
    rewrite <- app_assoc; reflexivity.
Qed.

(** For a chip from 0 to 3, InitMem succeeds; it makes the chip-select and
    the write-protect line of that chip outputs and leaves the direction of
    the other six lines, the output register and the device alone: it
    writes the direction register twice and does nothing else (WP_USED is
    MEMFALSE, so the write-protect line is not driven). *)
Lemma InitMem_makes_two_lines_outputs (chip : Z) (w : world D) :
  0 <= chip <= 3 ->
  let w' := snd (InitMem chip w) in
  fst (InitMem chip w) = MEMSUCC /\
  Z.testbit (ContDDR w') (GetCS chip) = true /\
  Z.testbit (ContDDR w') (GetWP chip) = true /\
  (forall i, 0 <= i < 8 -> i <> GetCS chip -> i <> GetWP chip ->
     Z.testbit (ContDDR w') i = Z.testbit (ContDDR w) i) /\
  ContPort w' = ContPort w /\ dev w' = dev w /\
  exists d1, trace w' = trace w ++ [EvDDR d1; EvDDR (ContDDR w')].
Proof.
  intros Hchip. cbv zeta. rewrite (InitMem_run chip w Hchip).
  cbn [fst snd ContPort ContDDR dev trace].
  pose proof (GetCS_range chip) as Hcs. pose proof (GetWP_range chip) as Hwp.
  split; [reflexivity |].
  split; [rewrite port_set_other by lia; apply port_set_bit; lia |].
  split; [apply port_set_bit; lia |].
  split; [intros i Hi H1 H2; rewrite !port_set_other by lia; reflexivity |].
  split; [reflexivity |]. split; [reflexivity |].
  eexists. reflexivity.
Qed.

(** For a chip from 0 to 3, CloseMem makes the two lines of that chip
    inputs again and leaves the other six alone; after InitMem it gives
    back the direction register InitMem found, when the two lines were
    inputs then; and InitMem is idempotent. *)
Lemma CloseMem_undoes_InitMem (chip : Z) (w : world D) :
  0 <= chip <= 3 ->
  let closed := snd (CloseMem chip w) in
  let opened := snd (InitMem chip w) in
  Z.testbit (ContDDR closed) (GetCS chip) = false /\
  Z.testbit (ContDDR closed) (GetWP chip) = false /\
  (forall i, 0 <= i < 8 -> i <> GetCS chip -> i <> GetWP chip ->
     Z.testbit (ContDDR closed) i = Z.testbit (ContDDR w) i) /\
  ContPort closed = ContPort w /\
  (0 <= ContDDR w < 256 ->
   Z.testbit (ContDDR w) (GetCS chip) = false ->
   Z.testbit (ContDDR w) (GetWP chip) = false ->
   ContDDR (snd (CloseMem chip opened)) = ContDDR w) /\
  ContDDR (snd (InitMem chip opened)) = ContDDR opened.
Proof.
  intros Hchip. cbv zeta.
  pose proof (GetCS_range chip) as Hcs. pose proof (GetWP_range chip) as Hwp.
  rewrite (CloseMem_run chip w Hchip), (InitMem_run chip w Hchip).
  cbn [snd].
  rewrite (CloseMem_run _ _ Hchip), (InitMem_run _ _ Hchip).
  cbn [fst snd ContPort ContDDR dev trace].
  split; [rewrite port_clear_other by lia; apply port_clear_bit; lia |].
  split; [apply port_clear_bit; lia |].
  split; [intros i Hi H1 H2; rewrite !port_clear_other by lia; reflexivity |].
  split; [reflexivity |].
  split.
  - intros Hddr Hb1 Hb2.
    apply uint8_bits_inj; [apply to_uint8_range | assumption |].
    intros n Hn.
    rewrite !port_clear_bits, !port_set_bits by lia.
    destruct (Z.ltb_spec n 8); [| lia]. cbn [andb].
    destruct (Z.eqb_spec n (GetCS chip)) as [E1 | H1];
      destruct (Z.eqb_spec n (GetWP chip)) as [E2 | H2];
      cbn [negb andb orb]; try reflexivity;
      first [rewrite E2 | rewrite E1]; symmetry; assumption.
  - apply uint8_bits_inj; [apply to_uint8_range | apply to_uint8_range |].
    intros n Hn. rewrite !port_set_bits by lia.
    destruct (Z.ltb_spec n 8); [| lia]. cbn [andb].
    destruct (Z.eqb_spec n (GetCS chip)), (Z.eqb_spec n (GetWP chip));
      cbn [orb]; reflexivity.
Qed.

(** ** What the operations leave alone *)

(** Bits of an output register that went through pin operations on other
    lines. *)
Ltac other_lines :=
  repeat first [ rewrite port_set_other by lia
               | rewrite port_clear_other by lia ];
  reflexivity.

(** No operation writes the direction register, and each changes, of the
    output register, nothing but the chip-select line of its chip
    (WriteMemStatus: that and the write-protect line of its chip): the
    lines of the other chips stay as they were, whether the operation
    succeeds or fails. *)
Lemma operations_leave_other_lines
    (chip Command Address NumBytes status : Z) (data : Z -> Z) (w : world D) :
  let kept (w' : world D) (lines : list Z) :=
    ContDDR w' = ContDDR w /\
    forall i, 0 <= i < 8 -> ~ In i lines ->
              Z.testbit (ContPort w') i = Z.testbit (ContPort w) i in
  kept (snd (SendCommandAndAddress chip Command Address w)) [GetCS chip] /\
  kept (snd (ReadData chip Address NumBytes data w)) [GetCS chip] /\
  kept (snd (WakeMem chip w)) [GetCS chip] /\
  kept (snd (SleepMem chip w)) [GetCS chip] /\
  kept (snd (ReadMemStatus chip status w)) [GetCS chip] /\
  kept (snd (CheckWIP chip w)) [GetCS chip] /\
  kept (snd (WriteMemStatus chip status w)) [GetCS chip; GetWP chip].
Proof.
  cbv zeta.
  pose proof (GetCS_range chip) as Hcs. pose proof (GetWP_range chip) as Hwp.
  assert (Hone : forall i, ~ In i [GetCS chip] -> i <> GetCS chip).
  { intros i Hn ->. apply Hn. left. reflexivity. }
  assert (Htwo : forall i, ~ In i [GetCS chip; GetWP chip] ->
                           i <> GetCS chip /\ i <> GetWP chip).
  { intros i Hn. split; intros ->; apply Hn; [left | right; left]; reflexivity. }
  split; [| split; [| split; [| split; [| split; [| split]]]]].
  - destruct (SendCommandAndAddress chip Command Address w) as [r w'] eqn:E.
    cbn [snd]. revert E. open_driver. repeat next_call.
    all: intros E; injection E as <- <-; cbn [ContPort ContDDR].
    all: split; [reflexivity |]; intros i Hi Hn; apply Hone in Hn; other_lines.
  - destruct (ReadData chip Address NumBytes data w) as [[r data'] w'] eqn:E.
    cbn [snd]. revert E. open_driver.
    repeat next_call; try run_loop; repeat next_call.
    all: intros E; injection E as <- <- <-; cbn [ContPort ContDDR].
    all: split; [reflexivity |]; intros i Hi Hn; apply Hone in Hn; other_lines.
  - destruct (WakeMem chip w) as [r w'] eqn:E.
    cbn [snd]. revert E. open_driver. repeat next_call.
    all: try (destruct (Z.eqb_spec b MDEVICE); cbn [negb]; cbv beta iota).
    all: intros E; injection E as <- <-; cbn [ContPort ContDDR].
    all: split; [reflexivity |]; intros i Hi Hn; apply Hone in Hn; other_lines.
  - destruct (SleepMem chip w) as [r w'] eqn:E.
    cbn [snd]. revert E. open_driver.
    change (negb (WP_USED =? 0)) with false. cbv iota.
    repeat next_call.
    all: intros E; injection E as <- <-; cbn [ContPort ContDDR].
    all: split; [reflexivity |]; intros i Hi Hn; apply Hone in Hn; other_lines.
  - destruct (ReadMemStatus chip status w) as [[r st] w'] eqn:E.
    cbn [snd]. revert E. open_driver. repeat next_call.
    all: intros E; injection E as <- <- <-; cbn [ContPort ContDDR].
    all: split; [reflexivity |]; intros i Hi Hn; apply Hone in Hn; other_lines.
  - destruct (CheckWIP chip w) as [r w'] eqn:E.
    cbn [snd]. revert E. open_driver. repeat next_call.
    all: try (destruct (negb (Z.land b (Z.shiftl 1 MWIP) =? 0)); cbv beta iota).
    all: intros E; injection E as <- <-; cbn [ContPort ContDDR].
    all: split; [reflexivity |]; intros i Hi Hn; apply Hone in Hn; other_lines.
  - destruct (WriteMemStatus chip status w) as [r w'] eqn:E.
    cbn [snd]. revert E. open_driver. repeat next_call.
    all: try (destruct (negb (Z.land status 140 =? Z.land b 140)); cbv beta iota).
    all: intros E; injection E as <- <-; cbn [ContPort ContDDR].
    all: split; [reflexivity |]; intros i Hi Hn; apply Htwo in Hn;
      destruct Hn; other_lines.
Qed.

(** An operation that deselects gives the output register back: when
    chip-select is high on entry (the chip is idle) and the register holds
    an 8-bit value, WakeMem, SleepMem and ReadData return success with the
    output register as they found it, and so does SetCS after
    ReadMemStatus, which does not deselect itself. *)
Lemma deselecting_operations_restore_the_port
    (chip Address NumBytes status : Z) (data : Z -> Z) (w : world D) :
  0 <= ContPort w < 256 ->
  Z.testbit (ContPort w) (GetCS chip) = true ->
  (fst (WakeMem chip w) = MEMSUCC -> ContPort (snd (WakeMem chip w)) = ContPort w) /\
  (fst (SleepMem chip w) = MEMSUCC -> ContPort (snd (SleepMem chip w)) = ContPort w) /\
  (fst (fst (ReadData chip Address NumBytes data w)) = MEMSUCC ->
     ContPort (snd (ReadData chip Address NumBytes data w)) = ContPort w) /\
  ContPort (snd (SetCS chip (snd (ReadMemStatus chip status w)))) = ContPort w /\
  ContPort (snd (ReadMemStatus chip status w)) <> ContPort w.
Proof.
  intros Hport Hidle.
  pose proof (GetCS_range chip) as Hcs.
  split; [| split; [| split; [| split]]].
  - destruct (WakeMem chip w) as [r w'] eqn:E.
    cbn [fst snd]. revert E. open_driver. repeat next_call.
    all: try (destruct (Z.eqb_spec b MDEVICE); cbn [negb]; cbv beta iota).
    all: intros E; injection E as <- <-; cbn [ContPort].
    all: first [ discriminate | intros _; apply port_restored; assumption || lia ].
  - destruct (SleepMem chip w) as [r w'] eqn:E.
    cbn [fst snd]. revert E. open_driver.
    change (negb (WP_USED =? 0)) with false. cbv iota.
    repeat next_call.
    all: intros E; injection E as <- <-; cbn [ContPort].
    all: first [ discriminate
               | intros _; rewrite port_clear_twice by lia;
                 apply port_restored; assumption || lia ].
  - destruct (ReadData chip Address NumBytes data w) as [[r data'] w'] eqn:E.
    cbn [fst snd]. revert E. open_driver.
    repeat next_call; try run_loop; repeat next_call.
    all: intros E; injection E as <- <- <-; cbn [ContPort].
    all: first [ discriminate | intros _; apply port_restored; assumption || lia ].
  - destruct (ReadMemStatus chip status w) as [[r st] w'] eqn:E.
    cbn [fst snd]. revert E. open_driver. repeat next_call.
    all: intros E; injection E as <- <- <-.
    all: cbn [snd ContPort]; apply port_restored; assumption || lia.
  - destruct (ReadMemStatus chip status w) as [[r st] w'] eqn:E.
    cbn [fst snd]. revert E. open_driver. repeat next_call.
    all: intros E; injection E as <- <- <-; cbn [ContPort].
    all: intros Heq; rewrite <- Heq in Hidle;
      rewrite port_clear_bit in Hidle by lia; discriminate Hidle.
Qed.

(** WriteMemStatus never drives chip-select high.  It writes the output
    register at most four times: write-protect high (chip-select as it
    was), chip-select low, write-protect low, chip-select low again; there
    is no deselect between the write-status command and the read-status
    command, and it returns success with chip-select and write-protect both
    driven low. *)
Lemma WriteMemStatus_never_deselects (chip v : Z) (w : world D) :
  let r := fst (WriteMemStatus chip v w) in
  let w' := snd (WriteMemStatus chip v w) in
  let cs := GetCS chip in
  let wp := GetWP chip in
  let p1 := to_uint8 (port_set (ContPort w) wp) in
  let p2 := to_uint8 (port_clear p1 cs) in
  let p3 := to_uint8 (port_clear p2 wp) in
  let p4 := to_uint8 (port_clear p3 cs) in
  (exists l k, trace w' = trace w ++ l /\
               port_writes l = firstn k [p1; p2; p3; p4] /\ (1 <= k)%nat) /\
  Z.testbit p1 cs = Z.testbit (ContPort w) cs /\
  Z.testbit p2 cs = false /\ Z.testbit p3 cs = false /\
  Z.testbit p4 cs = false /\
  (r = MEMSUCC ->
     ContPort w' = p4 /\ Z.testbit (ContPort w') wp = false).
Proof.
  cbv zeta.
  pose proof (GetCS_range chip) as Hcs. pose proof (GetWP_range chip) as Hwp.
  split; [| split; [| split; [| split; [| split]]]].
  - destruct (WriteMemStatus chip v w) as [r w'] eqn:E.
    cbn [fst snd]. revert E. open_driver. repeat next_call.
    all: try (destruct (negb (Z.land v 140 =? Z.land b 140)); cbv beta iota).
    all: intros E; injection E as <- <-; cbn [trace].
    all: rewrite <- ?app_assoc; cbn [app].
    all: eexists;
      first [ exists 4%nat; split; [reflexivity | split; [reflexivity | lia]]
            | exists 3%nat; split; [reflexivity | split; [reflexivity | lia]]
            | exists 2%nat; split; [reflexivity | split; [reflexivity | lia]]
            | exists 1%nat; split; [reflexivity | split; [reflexivity | lia]] ].
  - apply port_set_other; lia.
  - apply port_clear_bit; lia.
  - rewrite port_clear_other by lia. apply port_clear_bit; lia.
  - apply port_clear_bit; lia.
  - destruct (WriteMemStatus chip v w) as [r w'] eqn:E.
    cbn [fst snd]. revert E. open_driver. repeat next_call.
    all: try (destruct (negb (Z.land v 140 =? Z.land b 140)); cbv beta iota).
    all: intros E; injection E as <- <-; cbn [ContPort].
    all: first [ discriminate | intros _ ].
    all: split; [reflexivity |].
    all: rewrite port_clear_other by lia; apply port_clear_bit; lia.
Qed.

(** ** Address framing *)

Lemma address_bytes_recompose (Address : Z) :
  let hi := Z.land (Z.shiftr Address 16) 0xFF in
  let mid := Z.land (Z.shiftr Address 8) 0xFF in
  let lo := Z.land Address 0xFF in
  (0 <= hi < 256 /\ 0 <= mid < 256 /\ 0 <= lo < 256) /\
  hi * 65536 + mid * 256 + lo = Address mod 2 ^ 24.
Proof.
  cbv zeta. change 0xFF with (Z.ones 8).
  rewrite !Z.land_ones, !Z.shiftr_div_pow2 by lia.
  assert (H24 : Address mod 2 ^ 24 =
                Address mod 2 ^ 16 + 2 ^ 16 * ((Address / 2 ^ 16) mod 2 ^ 8)).
  { change (2 ^ 24) with (2 ^ 16 * 2 ^ 8). apply Z.rem_mul_r; lia. }
  assert (H16 : Address mod 2 ^ 16 =
                Address mod 2 ^ 8 + 2 ^ 8 * ((Address / 2 ^ 8) mod 2 ^ 8)).
  { change (2 ^ 16) with (2 ^ 8 * 2 ^ 8). apply Z.rem_mul_r; lia. }
  rewrite H24, H16.
  pose proof (Z.mod_pos_bound (Address / 2 ^ 16) (2 ^ 8) eq_refl).
  pose proof (Z.mod_pos_bound (Address / 2 ^ 8) (2 ^ 8) eq_refl).
  pose proof (Z.mod_pos_bound Address (2 ^ 8) eq_refl).
  change (2 ^ 8) with 256 in *. change (2 ^ 16) with 65536 in *.
  lia.
Qed.

(** SendCommandAndAddress selects the chip and transmits the command and
    then the three address bytes.  It returns MEMSUCC exactly when the four
    transmissions succeed; a transmission that fails is the last one made,
    so no address byte follows a command that failed; and it returns, on
    success and on failure, with chip-select driven low. *)
Lemma SendCommandAndAddress_frames (chip Command Address : Z) (w : world D) :
  let r := fst (SendCommandAndAddress chip Command Address w) in
  let w' := snd (SendCommandAndAddress chip Command Address w) in
  let cs := GetCS chip in
  let low := to_uint8 (port_clear (ContPort w) cs) in
  let hi := Z.land (Z.shiftr Address 16) 0xFF in
  let mid := Z.land (Z.shiftr Address 8) 0xFF in
  let lo := Z.land Address 0xFF in
  (r = MEMSUCC \/ r = MEMFAIL) /\
  (r = MEMSUCC <->
     exists p, trace w' = trace w ++ [EvPort low; EvPin p; EvTx Command 0;
                                      EvTx hi 0; EvTx mid 0; EvTx lo 0]) /\
  (exists l k, trace w' = trace w ++ l /\
               tx_bytes l = firstn k [Command; hi; mid; lo] /\ (1 <= k)%nat /\
               port_writes l = [low] /\ rx_count l = 0%nat) /\
  (r = MEMFAIL <->
     exists pre byte rc, trace w' = trace w ++ pre ++ [EvTx byte rc] /\ rc <> 0) /\
  ContPort w' = low /\ Z.testbit (ContPort w') cs = false.
Proof.
  cbv zeta. pose proof (GetCS_range chip) as Hcs.
  destruct (SendCommandAndAddress chip Command Address w) as [r w'] eqn:E.
  cbn [fst snd]. revert E. open_driver. rewrite !to_short_byte.
  repeat next_call.
  all: intros E; injection E as <- <-; cbn [ContPort ContDDR trace].
  all: rewrite <- ?app_assoc; cbn [app].
  all: (split; [auto |]).
  all: split;
    [ split;
      [ first [discriminate | intros _; eexists; reflexivity]
      | first [reflexivity | intros (p & Ht); exfalso; trace_clash Ht] ]
    | ].
  all: split;
    [ eexists;
      first [ exists 4%nat; split; [reflexivity |]; repeat split; lia
            | exists 3%nat; split; [reflexivity |]; repeat split; lia
            | exists 2%nat; split; [reflexivity |]; repeat split; lia
            | exists 1%nat; split; [reflexivity |]; repeat split; lia ]
    | ].
  all: split; [| split; [reflexivity | apply port_clear_bit; lia]].
  all: split.
  all: try discriminate.
  all: try (intros _; reflexivity).
  all: try (intros _;
            first [ eexists [_; _; _; _; _], _, _; split; [reflexivity | assumption]
                  | eexists [_; _; _; _], _, _; split; [reflexivity | assumption]
                  | eexists [_; _; _], _, _; split; [reflexivity | assumption]
                  | eexists [_; _], _, _; split; [reflexivity | assumption] ]).
  all: intros (pre & byte & rc' & Ht & Hrc); exfalso.
  all: last_event Ht; injection Ht as _ <-; apply Hrc; reflexivity.
Qed.

(** ** The buffer of ReadData *)

Lemma rx_bytes_app (l1 l2 : list event) :
  rx_bytes (l1 ++ l2) = rx_bytes l1 ++ rx_bytes l2.
Proof.
  induction l1 as [| e l1 IH]; [reflexivity |].
  destruct e; cbn [app rx_bytes]; try exact IH.
  destruct (rc =? 0); cbn [app]; rewrite IH; reflexivity.
Qed.

Lemma rx_bytes_received (flag : Z) (bs : list Z) :
  rx_bytes (map (EvRx flag 0) bs) = bs.
Proof.
  induction bs as [| b bs IH]; [reflexivity |].
  cbn [map rx_bytes]. change (0 =? 0) with true. cbv iota.
  rewrite IH. reflexivity.
Qed.

Lemma rx_bytes_failed (flag rc b : Z) : rc <> 0 -> rx_bytes [EvRx flag rc b] = [].
Proof.
  intros H. cbn [rx_bytes]. destruct (Z.eqb_spec rc 0); [contradiction | reflexivity].
Qed.

Lemma fill_from_0 (data : Z -> Z) (bs : list Z) (i : Z) :
  fill data 0 bs i =
    if (0 <=? i) && (i <? Z.of_nat (length bs)) then nth (Z.to_nat i) bs 0
    else data i.
Proof.
  destruct (Z.leb_spec 0 i), (Z.ltb_spec i (Z.of_nat (length bs))); cbn [andb].
  - rewrite fill_inside by lia. f_equal. lia.
  - apply fill_outside. lia.
  - apply fill_outside. lia.
  - apply fill_outside. lia.
Qed.

Lemma to_ulong_range (v : Z) : 0 <= to_ulong v < 2 ^ 32.
Proof. unfold to_ulong, to_unsigned. apply Z.mod_pos_bound. reflexivity. Qed.

(** Simplifies [rx_bytes] on the trace of a run of ReadData. *)
Ltac read_bytes :=
  cbn [rx_bytes]; rewrite ?rx_bytes_app, ?rx_bytes_received;
  rewrite ?rx_bytes_failed by assumption;
  cbn [rx_bytes]; rewrite ?app_nil_r.

(** On every path through ReadData the buffer is the old buffer with the
    bytes received so far stored from index 0 on, and they are at most as
    many as the count converted to unsigned long; on success exactly as
    many. *)
Lemma ReadData_received (chip Address NumBytes : Z) (data : Z -> Z) (w : world D) :
  let r := fst (fst (ReadData chip Address NumBytes data w)) in
  let data' := snd (fst (ReadData chip Address NumBytes data w)) in
  let w' := snd (ReadData chip Address NumBytes data w) in
  exists l,
    trace w' = trace w ++ l /\
    Z.of_nat (length (rx_bytes l)) <= to_ulong NumBytes /\
    (forall i, data' i = fill data 0 (rx_bytes l) i) /\
    (r = MEMSUCC -> Z.of_nat (length (rx_bytes l)) = to_ulong NumBytes).
Proof.
  cbv zeta. pose proof (to_ulong_range NumBytes) as Hn.
  destruct (ReadData chip Address NumBytes data w) as [[r data'] w'] eqn:E.
  cbn [fst snd]. revert E. open_driver.
  repeat next_call; try run_loop; repeat next_call.
  all: intros E; injection E as <- <- <-; cbn [trace].
  all: rewrite <- ?app_assoc; cbn [app].
  all: eexists; split; [reflexivity |]; read_bytes.
  all: split; [cbn [length]; lia |].
  all: split; [intros i; reflexivity |].
  all: first [discriminate | intros _; lia].
Qed.

(** For a count N from 0 to 0x7FFFFFFF, ReadData stores into the buffer
    the bytes it received, in order, from index 0 on, and changes no other
    element: never more than N elements, exactly N on success, and on a
    failure the elements received before it.  With N = 0 the buffer is left
    as it was. *)
Lemma ReadData_buffer_holds_what_was_received
    (chip Address NumBytes : Z) (data : Z -> Z) (w : world D) :
  0 <= NumBytes <= 0x7FFFFFFF ->
  let r := fst (fst (ReadData chip Address NumBytes data w)) in
  let data' := snd (fst (ReadData chip Address NumBytes data w)) in
  let w' := snd (ReadData chip Address NumBytes data w) in
  exists l,
    trace w' = trace w ++ l /\
    Z.of_nat (length (rx_bytes l)) <= NumBytes /\
    (forall i, data' i =
               if (0 <=? i) && (i <? Z.of_nat (length (rx_bytes l)))
               then nth (Z.to_nat i) (rx_bytes l) 0 else data i) /\
    (forall i, i < 0 \/ NumBytes <= i -> data' i = data i) /\
    (r = MEMSUCC -> Z.of_nat (length (rx_bytes l)) = NumBytes).
Proof.
  intros HN. cbv zeta.
  assert (Hcount : to_ulong NumBytes = NumBytes).
  { unfold to_ulong, to_unsigned. apply Z.mod_small. simpl. lia. }
  destruct (ReadData_received chip Address NumBytes data w)
    as (l & Ht & Hle & Hdata & Hsucc).
  rewrite Hcount in Hle, Hsucc.
  exists l. split; [exact Ht |]. split; [exact Hle |].
  split; [intros i; rewrite Hdata; apply fill_from_0 |].
  split; [| exact Hsucc].
  intros i Hi. rewrite Hdata. apply fill_outside. lia.
Qed.

(** ** One chip after another *)

Lemma ReadMemStatus_port (chip status : Z) (w : world D) :
  ContPort (snd (ReadMemStatus chip status w)) =
    to_uint8 (port_clear (ContPort w) (GetCS chip)).
Proof.
  destruct (ReadMemStatus chip status w) as [[r st] w'] eqn:E.
  cbn [snd]. revert E. open_driver. repeat next_call.
  all: intros E; injection E as <- <- <-; reflexivity.
Qed.

Lemma WakeMem_port_writes (chip : Z) (w : world D) :
  let low := to_uint8 (port_clear (ContPort w) (GetCS chip)) in
  let high := to_uint8 (port_set low (GetCS chip)) in
  exists l,
    trace (snd (WakeMem chip w)) = trace w ++ l /\
    ((port_writes l = [low] /\ ContPort (snd (WakeMem chip w)) = low) \/
     (port_writes l = [low; high] /\ ContPort (snd (WakeMem chip w)) = high)).
Proof.
  cbv zeta.
  destruct (WakeMem chip w) as [r w'] eqn:E.
  cbn [snd]. revert E. open_driver. repeat next_call.
  all: try (destruct (Z.eqb_spec b MDEVICE); cbn [negb]; cbv beta iota).
  all: intros E; injection E as <- <-; cbn [ContPort trace].
  all: rewrite <- ?app_assoc; cbn [app].
  all: eexists; split; [reflexivity |]; cbn [port_writes].
  all: first [left; split; reflexivity | right; split; reflexivity].
Qed.

(** ReadMemStatus leaves its chip selected, and nothing deselects it for
    the next operation: when WakeMem is then run on a chip with another
    chip-select line, every value it writes to the output register, and the
    value it leaves there, has the line of the first chip low.  The two
    chips are selected together for the whole of the second operation. *)
Lemma status_poll_stays_selected_during_the_next_operation
    (a b status : Z) (w : world D) :
  GetCS a <> GetCS b ->
  let polled := snd (ReadMemStatus a status w) in
  let woken := snd (WakeMem b polled) in
  exists l,
    trace woken = trace polled ++ l /\
    port_writes l <> [] /\
    Forall (fun v => Z.testbit v (GetCS a) = false) (port_writes l) /\
    Z.testbit (ContPort woken) (GetCS a) = false.
Proof.
  intros Hab. cbv zeta.
  pose proof (GetCS_range a) as Ha. pose proof (GetCS_range b) as Hb.
  destruct (WakeMem_port_writes b (snd (ReadMemStatus a status w)))
    as (l & Ht & Hports).
  rewrite ReadMemStatus_port in Hports.
  assert (Hlow : Z.testbit
                   (to_uint8 (port_clear
                      (to_uint8 (port_clear (ContPort w) (GetCS a))) (GetCS b)))
                   (GetCS a) = false).
  { rewrite port_clear_other by lia. apply port_clear_bit. lia. }
  assert (Hhigh : Z.testbit
                    (to_uint8 (port_set
                       (to_uint8 (port_clear
                          (to_uint8 (port_clear (ContPort w) (GetCS a))) (GetCS b)))
                       (GetCS b)))
                    (GetCS a) = false).
  { rewrite port_set_other by lia. exact Hlow. }
  exists l. split; [exact Ht |].
  destruct Hports as [[Hw Hp] | [Hw Hp]]; rewrite Hw, Hp.
  - split; [discriminate |]. split; [| exact Hlow].
    constructor; [exact Hlow | constructor].
  - split; [discriminate |]. split; [| exact Hhigh].
    constructor; [exact Hlow |]. constructor; [exact Hhigh | constructor].
Qed.

(** ** Doing a pin operation twice *)

Lemma port_set_twice (p pin : Z) :
  0 <= pin < 8 ->
  to_uint8 (port_set (to_uint8 (port_set p pin)) pin) = to_uint8 (port_set p pin).
Proof.
  intros Hpin.
  apply uint8_bits_inj; [apply to_uint8_range | apply to_uint8_range |].
  intros n Hn. rewrite !port_set_bits by lia.
  destruct (Z.ltb_spec n 8); [| lia]. cbn [andb].
  destruct (Z.eqb_spec n pin); cbn [orb]; reflexivity.
Qed.

(** Each pin operation is idempotent on the output register: run a second
    time, whatever the pins read back, it leaves the register as the first
    run left it. *)
Lemma pin_operation_twice (chip : Z) (w : world D) :
  ContPort (snd (SetCS chip (snd (SetCS chip w)))) = ContPort (snd (SetCS chip w)) /\
  ContPort (snd (ClearCS chip (snd (ClearCS chip w)))) = ContPort (snd (ClearCS chip w)) /\
  ContPort (snd (SetWP chip (snd (SetWP chip w)))) = ContPort (snd (SetWP chip w)) /\
  ContPort (snd (ClearWP chip (snd (ClearWP chip w)))) = ContPort (snd (ClearWP chip w)).
Proof.
  pose proof (GetCS_range chip) as Hcs. pose proof (GetWP_range chip) as Hwp.
  split; [| split; [| split]].
  - destruct (SetCS_run chip w) as (v & d & E). rewrite E. cbn [snd].
    destruct (SetCS_run chip
                (mkWorld (to_uint8 (port_set (ContPort w) (GetCS chip)))
                   (ContDDR w) d
                   (trace w ++ [EvPort (to_uint8 (port_set (ContPort w) (GetCS chip)));
                                EvPin v]))) as (v' & d' & E').
    rewrite E'. cbn [snd ContPort]. apply port_set_twice. lia.
  - destruct (ClearCS_run chip w) as (v & d & E). rewrite E. cbn [snd].
    destruct (ClearCS_run chip
                (mkWorld (to_uint8 (port_clear (ContPort w) (GetCS chip)))
                   (ContDDR w) d
                   (trace w ++ [EvPort (to_uint8 (port_clear (ContPort w) (GetCS chip)));
                                EvPin v]))) as (v' & d' & E').
    rewrite E'. cbn [snd ContPort]. apply port_clear_twice. lia.
  - destruct (SetWP_run chip w) as (v & d & E). rewrite E. cbn [snd].
    destruct (SetWP_run chip
                (mkWorld (to_uint8 (port_set (ContPort w) (GetWP chip)))
                   (ContDDR w) d
                   (trace w ++ [EvPort (to_uint8 (port_set (ContPort w) (GetWP chip)));
                                EvPin v]))) as (v' & d' & E').
    rewrite E'. cbn [snd ContPort]. apply port_set_twice. lia.
  - destruct (ClearWP_run chip w) as (v & d & E). rewrite E. cbn [snd].
    destruct (ClearWP_run chip
                (mkWorld (to_uint8 (port_clear (ContPort w) (GetWP chip)))
                   (ContDDR w) d
                   (trace w ++ [EvPort (to_uint8 (port_clear (ContPort w) (GetWP chip)));
                                EvPin v]))) as (v' & d' & E').
    rewrite E'. cbn [snd ContPort]. apply port_clear_twice. lia.
Qed.

(** ** GetPage below the array *)

(** GetPage has no lower bound: every negative address down to -0x800000
    is accepted with MEMSUCC. *)
Lemma GetPage_accepts_negative_addresses (Address caller : Z) :
  -0x800000 <= Address < 0 -> fst (GetPage Address caller) = MEMSUCC.
Proof.
  intros H. unfold GetPage, to_int, to_signed, PAGE_SIZE. cbv zeta.
  pose proof (Z.quot_rem' Address 256) as Hqr.
  pose proof (Z.rem_bound_abs Address 256 ltac:(lia)) as Hr.
  pose proof (Z.rem_nonpos Address 256 ltac:(lia) ltac:(lia)) as Hr'.
  change (Z.abs 256) with 256 in Hr.
  assert (Hq : -32768 <= Address ÷ 256 <= 0) by lia.
  destruct (Z.eq_dec (Address ÷ 256) 0) as [E0 | Hne].
  - rewrite E0. reflexivity.
  - rewrite <- (Z.mod_add (Address ÷ 256) 1 (2 ^ 16)) by (simpl; lia).
    rewrite Z.mod_small by (simpl; lia).
    destruct (Z.ltb_spec (Address ÷ 256 + 1 * 2 ^ 16) (2 ^ (16 - 1))) as [Hlt | _];
      [simpl in Hlt; lia |].
    destruct (Z.gtb_spec (Address ÷ 256 + 1 * 2 ^ 16 - 2 ^ 16) 511);
      [simpl in *; lia | reflexivity].
Qed.

(** * The operations, step by step *)

(** Each operation of the driver is a straight line of hardware accesses
    with a return after every call whose status it tests.  A run of an
    operation is therefore its list of steps cut after the first step that
    fails, [until_failed script], and what it returns is decided by
    [all_passed script].  The lemmas below establish this for each
    operation; the values a step obtained from the hardware (pin levels,
    transport statuses, bytes) are the ones recorded in the trace. *)

(** ** Cutting a list of steps *)

Lemma cut_nothing : @nil event = until_failed [].
Proof. reflexivity. Qed.

Lemma cut_write_port (v : Z) (rest : list step) (l : list event) :
  l = until_failed rest -> EvPort v :: l = until_failed (write_port v :: rest).
Proof. intros ->. reflexivity. Qed.

Lemma cut_read_pin (p : Z) (rest : list step) (l : list event) :
  l = until_failed rest -> EvPin p :: l = until_failed (read_pin p :: rest).
Proof. intros ->. reflexivity. Qed.

Lemma cut_pin_high (p line : Z) (rest : list step) (l : list event) :
  Z.testbit p line = true ->
  l = until_failed rest -> EvPin p :: l = until_failed (read_pin_high p line :: rest).
Proof. intros H ->. cbn. rewrite H. reflexivity. Qed.

Lemma cut_pin_not_high (p line : Z) (rest : list step) :
  Z.testbit p line = false ->
  [EvPin p] = until_failed (read_pin_high p line :: rest).
Proof. intros H. cbn. rewrite H. reflexivity. Qed.

Lemma cut_pin_low (p line : Z) (rest : list step) (l : list event) :
  Z.testbit p line = false ->
  l = until_failed rest -> EvPin p :: l = until_failed (read_pin_low p line :: rest).
Proof. intros H ->. cbn. rewrite H. reflexivity. Qed.

Lemma cut_pin_not_low (p line : Z) (rest : list step) :
  Z.testbit p line = true ->
  [EvPin p] = until_failed (read_pin_low p line :: rest).
Proof. intros H. cbn. rewrite H. reflexivity. Qed.

Lemma cut_transmit (byte : Z) (rest : list step) (l : list event) :
  l = until_failed rest -> EvTx byte 0 :: l = until_failed (transmit byte 0 :: rest).
Proof. intros ->. reflexivity. Qed.

Lemma cut_transmit_failed (byte rc : Z) (rest : list step) :
  rc <> 0 -> [EvTx byte rc] = until_failed (transmit byte rc :: rest).
Proof.
  intros H. cbn. destruct (Z.eqb_spec rc 0); [contradiction | reflexivity].
Qed.

Lemma cut_receive (flag byte : Z) (rest : list step) (l : list event) :
  l = until_failed rest ->
  EvRx flag 0 byte :: l = until_failed (receive flag 0 byte :: rest).
Proof. intros ->. reflexivity. Qed.

Lemma cut_receive_failed (flag rc byte : Z) (rest : list step) :
  rc <> 0 -> [EvRx flag rc byte] = until_failed (receive flag rc byte :: rest).
Proof.
  intros H. cbn. destruct (Z.eqb_spec rc 0); [contradiction | reflexivity].
Qed.

(** Uses what is known of the statuses and levels of a run. *)
Ltac use_facts :=
  repeat match goal with
         | H : ?x <> 0 |- _ => apply Z.eqb_neq in H
         end;
  repeat match goal with
         | H : _ = true |- _ => progress rewrite H
         | H : _ = false |- _ => progress rewrite H
         end.

Ltac settle_script :=
  cbn [all_passed forallb snd write_port read_pin read_pin_high read_pin_low
       transmit receive port_writes last Z.eqb];
  use_facts;
  cbn [negb andb orb].

(** Matches what a run did against the steps of the operation. *)
Ltac replay :=
  repeat first
    [ exact cut_nothing
    | apply cut_write_port
    | apply cut_read_pin
    | apply cut_pin_high; [assumption |]
    | apply cut_pin_not_high; assumption
    | apply cut_pin_low; [assumption |]
    | apply cut_pin_not_low; assumption
    | apply cut_transmit
    | apply cut_transmit_failed; assumption
    | apply cut_receive
    | apply cut_receive_failed; assumption ].

(** Runs the operation of the goal [op w = _], names the values of the
    run and matches what it did against the steps of the statement. *)
Ltac match_steps :=
  lazymatch goal with
  | |- (_, mkWorld _ _ _ (_ ++ ?leaf)) = (_, mkWorld _ _ _ (_ ++ until_failed ?script)) =>
      let Hcut := fresh "Hcut" in
      assert (Hcut : leaf = until_failed script) by (cbn [app]; replay);
      rewrite <- Hcut; clear Hcut
  end;
  settle_script; try reflexivity.

(** ** Lists of steps in general *)

Lemma all_passed_app (s1 s2 : list step) :
  all_passed (s1 ++ s2) = all_passed s1 && all_passed s2.
Proof. apply forallb_app. Qed.

Lemma until_failed_app (s1 s2 : list step) :
  until_failed (s1 ++ s2) =
    if all_passed s1 then map fst s1 ++ until_failed s2 else until_failed s1.
Proof.
  induction s1 as [| [e g] s1 IH]; [reflexivity |].
  cbn [app until_failed all_passed forallb snd map fst].
  destruct g; cbn [negb andb]; [reflexivity |].
  fold (all_passed s1). rewrite IH. destruct (all_passed s1); reflexivity.
Qed.

Lemma until_failed_passed (s : list step) :
  all_passed s = true -> until_failed s = map fst s.
Proof.
  intros H. rewrite <- (app_nil_r s) at 1. rewrite until_failed_app, H.
  apply app_nil_r.
Qed.

Lemma fault_is_last (s : list step) :
  well_flagged s ->
  forall pre e post,
    until_failed s = pre ++ e :: post -> faulted e = true -> post = [].
Proof.
  induction s as [| [e0 g] s IH]; intros Hwf pre e post Hl He.
  - destruct pre; discriminate Hl.
  - inversion Hwf as [| x l Hx Hrest]; subst. cbn [fst snd] in Hx.
    cbn [until_failed] in Hl. destruct g.
    + destruct pre as [| e1 pre].
      * injection Hl as _ <-. reflexivity.
      * injection Hl as _ Hl. destruct pre; discriminate Hl.
    + destruct pre as [| e1 pre].
      * injection Hl as -> _. specialize (Hx He). discriminate Hx.
      * injection Hl as _ Hl. exact (IH Hrest pre e post Hl He).
Qed.

(** Every list of steps built from the six kinds of step is well flagged. *)
Ltac flagged :=
  unfold well_flagged;
  repeat first [ apply Forall_nil
               | apply Forall_cons; [cbn; intros Hf; first [exact Hf | discriminate Hf] |] ].

(** ** The steps of each operation *)

Lemma SendAddress_steps (chip Address : Z) (w : world D) :
  let hi := Z.land (Z.shiftr Address 16) 0xFF in
  let mid := Z.land (Z.shiftr Address 8) 0xFF in
  let lo := Z.land Address 0xFF in
  exists rc1 rc2 rc3 d,
    let script := [transmit hi rc1; transmit mid rc2; transmit lo rc3] in
    SendAddress chip Address w =
      (if all_passed script then MEMSUCC else MEMFAIL,
       mkWorld (ContPort w) (ContDDR w) d (trace w ++ until_failed script)).
Proof.
  cbv zeta.
  destruct (SendAddress chip Address w) as [r w'] eqn:E. revert E.
  open_driver. rewrite !to_short_byte. repeat next_call.
  all: intros E; injection E as <- <-.
  all: rewrite <- ?app_assoc; cbn [app].
  all: do 4 eexists; match_steps.
  Unshelve. all: exact 0.
Qed.

Lemma SendCommand_steps (chip Command : Z) (w : world D) :
  let low := to_uint8 (port_clear (ContPort w) (GetCS chip)) in
  exists p rc d,
    let script := [write_port low; read_pin p; transmit Command rc] in
    SendCommand chip Command w =
      (if all_passed script then MEMSUCC else MEMFAIL,
       mkWorld low (ContDDR w) d (trace w ++ until_failed script)).
Proof.
  cbv zeta.
  destruct (SendCommand chip Command w) as [r w'] eqn:E. revert E.
  open_driver. repeat next_call.
  all: intros E; injection E as <- <-.
  all: rewrite <- ?app_assoc; cbn [app].
  all: do 3 eexists; match_steps.
  Unshelve. all: exact 0.
Qed.

Lemma SendCommandAndAddress_steps (chip Command Address : Z) (w : world D) :
  let low := to_uint8 (port_clear (ContPort w) (GetCS chip)) in
  let hi := Z.land (Z.shiftr Address 16) 0xFF in
  let mid := Z.land (Z.shiftr Address 8) 0xFF in
  let lo := Z.land Address 0xFF in
  exists p rc1 rc2 rc3 rc4 d,
    let script := [write_port low; read_pin p; transmit Command rc1;
                   transmit hi rc2; transmit mid rc3; transmit lo rc4] in
    SendCommandAndAddress chip Command Address w =
      (if all_passed script then MEMSUCC else MEMFAIL,
       mkWorld low (ContDDR w) d (trace w ++ until_failed script)).
Proof.
  cbv zeta.
  destruct (SendCommandAndAddress chip Command Address w) as [r w'] eqn:E.
  revert E. open_driver. rewrite !to_short_byte. repeat next_call.
  all: intros E; injection E as <- <-.
  all: rewrite <- ?app_assoc; cbn [app].
  all: do 6 eexists; match_steps.
  Unshelve. all: exact 0.
Qed.

Lemma ReadMemStatus_steps (chip status : Z) (w : world D) :
  let low := to_uint8 (port_clear (ContPort w) (GetCS chip)) in
  exists p rc1 rc2 b d,
    let script := [write_port low; read_pin p;
                   transmit 0x05 rc1; receive (SPIFALSE hw) rc2 b] in
    ReadMemStatus chip status w =
      ((if all_passed script then MEMSUCC else MEMFAIL,
        if all_passed script then b else status),
       mkWorld low (ContDDR w) d (trace w ++ until_failed script)).
Proof.
  cbv zeta.
  destruct (ReadMemStatus chip status w) as [[r st] w'] eqn:E. revert E.
  open_driver. repeat next_call.
  all: intros E; injection E as <- <- <-.
  all: rewrite <- ?app_assoc; cbn [app]; change MRDSR with 5.
  all: do 5 eexists; match_steps.
  Unshelve. all: exact 0.
Qed.

Lemma CheckWIP_steps (chip : Z) (w : world D) :
  let low := to_uint8 (port_clear (ContPort w) (GetCS chip)) in
  exists p rc1 rc2 b d,
    let script := [write_port low; read_pin p;
                   transmit 0x05 rc1; receive (SPIFALSE hw) rc2 b] in
    CheckWIP chip w =
      (if all_passed script
       then if Z.testbit b 0 then MEMTRUE else MEMFALSE
       else MEMFAIL,
       mkWorld low (ContDDR w) d (trace w ++ until_failed script)).
Proof.
  cbv zeta.
  destruct (CheckWIP chip w) as [r w'] eqn:E. revert E.
  open_driver. repeat next_call.
  all: try rewrite mask_test by (unfold MWIP; lia).
  all: unfold MWIP.
  all: try (destruct (Z.testbit b 0) eqn:Hbit; cbn [negb]; cbv beta iota).
  all: intros E; injection E as <- <-.
  all: rewrite <- ?app_assoc; cbn [app]; change MRDSR with 5.
  all: do 5 eexists; match_steps.
  Unshelve. all: exact 0.
Qed.

Lemma WakeMem_steps (chip : Z) (w : world D) :
  let cs := GetCS chip in
  let low := to_uint8 (port_clear (ContPort w) cs) in
  let high := to_uint8 (port_set low cs) in
  exists p1 rc1 rc2 rc3 rc4 rc5 b p2 d,
    let script :=
      [write_port low; read_pin p1;
       transmit 0xAB rc1; transmit 0xA5 rc2; transmit 0xA5 rc3; transmit 0xA5 rc4;
       receive (SPIFALSE hw) rc5 b;
       write_port high; read_pin_high p2 cs] in
    WakeMem chip w =
      (if all_passed script && (b =? 0x29) then MEMSUCC else MEMFAIL,
       mkWorld (last (port_writes (until_failed script)) (ContPort w))
               (ContDDR w) d (trace w ++ until_failed script)).
Proof.
  cbv zeta.
  destruct (WakeMem chip w) as [r w'] eqn:E. revert E.
  open_driver. repeat next_call.
  all: try (destruct (b =? MDEVICE) eqn:Hb; cbn [negb]; cbv beta iota).
  all: intros E; injection E as <- <-.
  all: rewrite <- ?app_assoc; cbn [app].
  all: change (to_short (Z.land (Z.shiftr 10855845 16) 255)) with 165.
  all: change (to_short (Z.land (Z.shiftr 10855845 8) 255)) with 165.
  all: change (to_short (Z.land 10855845 255)) with 165.
  all: change MRDID with 171; change MDEVICE with 41 in *.
  all: change (to_short 165) with 165.
  all: do 9 eexists; match_steps.
  Unshelve. all: exact 0.
Qed.

Lemma SleepMem_steps (chip : Z) (w : world D) :
  let cs := GetCS chip in
  let low := to_uint8 (port_clear (ContPort w) cs) in
  let low' := to_uint8 (port_clear low cs) in
  let high := to_uint8 (port_set low' cs) in
  exists p1 p2 rc p3 d,
    let script :=
      [write_port low; read_pin_low p1 cs;
       write_port low'; read_pin p2; transmit 0xB9 rc;
       write_port high; read_pin_high p3 cs] in
    SleepMem chip w =
      (if all_passed script then MEMSUCC else MEMFAIL,
       mkWorld (last (port_writes (until_failed script)) (ContPort w))
               (ContDDR w) d (trace w ++ until_failed script)).
Proof.
  cbv zeta.
  destruct (SleepMem chip w) as [r w'] eqn:E. revert E.
  open_driver. change (negb (WP_USED =? 0)) with false. cbv iota.
  repeat next_call.
  all: intros E; injection E as <- <-.
  all: rewrite <- ?app_assoc; cbn [app]; change MDPD with 185.
  all: do 5 eexists; match_steps.
  Unshelve. all: exact 0.
Qed.

Lemma WriteMemStatus_steps (chip v : Z) (w : world D) :
  let cs := GetCS chip in
  let wp := GetWP chip in
  let p1 := to_uint8 (port_set (ContPort w) wp) in
  let p2 := to_uint8 (port_clear p1 cs) in
  let p3 := to_uint8 (port_clear p2 wp) in
  let p4 := to_uint8 (port_clear p3 cs) in
  exists q1 q2 rc1 rc2 q3 q4 rc3 rc4 s d,
    let script :=
      [write_port p1; read_pin_high q1 wp;
       write_port p2; read_pin q2; transmit 0x01 rc1; transmit v rc2;
       write_port p3; read_pin_low q3 wp;
       write_port p4; read_pin q4; transmit 0x05 rc3;
       receive (SPIFALSE hw) rc4 s] in
    WriteMemStatus chip v w =
      (if all_passed script && (Z.land v 0x8C =? Z.land s 0x8C)
       then MEMSUCC else MEMFAIL,
       mkWorld (last (port_writes (until_failed script)) (ContPort w))
               (ContDDR w) d (trace w ++ until_failed script)).
Proof.
  cbv zeta.
  destruct (WriteMemStatus chip v w) as [r w'] eqn:E. revert E.
  open_driver. repeat next_call.
  all: try (destruct (Z.land v 140 =? Z.land b 140) eqn:Hmask;
            cbn [negb]; cbv beta iota).
  all: intros E; injection E as <- <-.
  all: rewrite <- ?app_assoc; cbn [app]; change MWRSR with 1; change MRDSR with 5.
  all: do 10 eexists; match_steps.
  Unshelve. all: exact 0.
Qed.

(** *** ReadData *)

Lemma cut_receptions (flag : Z) (bs : list Z) (rest : list step) (l : list event) :
  l = until_failed rest ->
  map (EvRx flag 0) bs ++ l = until_failed (receptions flag (received bs) ++ rest).
Proof.
  intros ->. induction bs as [| b bs IH]; [reflexivity |].
  cbn [map app receptions received until_failed receive fst snd].
  change (negb (0 =? 0)) with false. cbv iota.
  f_equal. exact IH.
Qed.

Lemma cut_receptions_failed (flag : Z) (bs : list Z) (rc b : Z)
    (pad : list (Z * Z)) (rest : list step) :
  rc <> 0 ->
  map (EvRx flag 0) bs ++ [EvRx flag rc b] =
    until_failed (receptions flag (received bs ++ (rc, b) :: pad) ++ rest).
Proof.
  intros Hrc. unfold receptions. rewrite map_app, <- app_assoc.
  apply cut_receptions. cbn [map app fst snd].
  apply cut_receive_failed. exact Hrc.
Qed.

Lemma all_passed_received (flag : Z) (bs : list Z) :
  forallb (fun s : step => negb (snd s)) (receptions flag (received bs)) = true.
Proof.
  change (all_passed (receptions flag (received bs)) = true).
  induction bs as [| b bs IH]; [reflexivity |].
  cbn [receptions received map all_passed forallb receive fst snd].
  change (negb (negb (0 =? 0))) with true. cbn [andb]. exact IH.
Qed.

Lemma all_passed_not_received (flag : Z) (bs : list Z) (rc b : Z)
    (pad : list (Z * Z)) :
  rc <> 0 ->
  forallb (fun s : step => negb (snd s))
    (receptions flag (received bs ++ (rc, b) :: pad)) = false.
Proof.
  intros Hrc. unfold receptions. rewrite map_app, forallb_app.
  fold (receptions flag (received bs)). rewrite all_passed_received.
  cbn [andb map all_passed forallb receive fst snd].
  destruct (Z.eqb_spec rc 0); [contradiction | reflexivity].
Qed.

Lemma existsb_faulted_received (flag : Z) (bs : list Z) :
  existsb faulted (map (EvRx flag 0) bs) = false.
Proof. induction bs as [| b bs IH]; [reflexivity | exact IH]. Qed.

(** Simplifies [existsb faulted] on the trace of a run. *)
Ltac read_faults :=
  cbn [existsb app]; rewrite ?existsb_app, ?existsb_faulted_received;
  cbn [existsb];
  rewrite ?faulted_tx, ?faulted_rx by assumption;
  cbn [faulted Z.eqb negb orb].

(** ReadData, for [n] the count converted to unsigned long: what it does
    are its steps up to the first after which it gives up; it succeeds
    when none does; the buffer gets the bytes received. *)
Lemma ReadData_steps (chip Address NumBytes : Z) (data : Z -> Z) (w : world D) :
  let r := fst (fst (ReadData chip Address NumBytes data w)) in
  let data' := snd (fst (ReadData chip Address NumBytes data w)) in
  let w' := snd (ReadData chip Address NumBytes data w) in
  let cs := GetCS chip in
  let low := to_uint8 (port_clear (ContPort w) cs) in
  let high := to_uint8 (port_set low cs) in
  let hi := Z.land (Z.shiftr Address 16) 0xFF in
  let mid := Z.land (Z.shiftr Address 8) 0xFF in
  let lo := Z.land Address 0xFF in
  exists p1 rc1 rc2 rc3 rc4 rxs p2,
    let script :=
      [write_port low; read_pin p1;
       transmit 0x03 rc1; transmit hi rc2; transmit mid rc3; transmit lo rc4]
      ++ receptions (SPIFALSE hw) rxs
      ++ [write_port high; read_pin_high p2 cs] in
    length rxs = Z.to_nat (to_ulong NumBytes) /\
    trace w' = trace w ++ until_failed script /\
    r = (if all_passed script then MEMSUCC else MEMFAIL) /\
    ContPort w' = last (port_writes (until_failed script)) (ContPort w) /\
    ContDDR w' = ContDDR w /\
    (forall i, data' i = fill data 0 (rx_bytes (until_failed script)) i) /\
    (existsb faulted (until_failed script) = true ->
       port_writes (until_failed script) = [low]) /\
    (existsb faulted (until_failed script) = false ->
       port_writes (until_failed script) = [low; high]).
Proof.
  cbv zeta.
  destruct (ReadData chip Address NumBytes data w) as [[r data'] w'] eqn:E.
  cbn [fst snd]. revert E. open_driver. rewrite !to_short_byte.
  change MREAD with 3.
  repeat next_call; try run_loop; repeat next_call.
  all: intros E; injection E as <- <- <-; cbn [ContPort ContDDR trace].
  all: rewrite <- ?app_assoc; cbn [app].
  all: lazymatch goal with
       | |- context [map (EvRx _ 0) ?bs ++ [EvRx _ ?rc ?b]] =>
           eexists _, _, _, _, _,
             (received bs ++ (rc, b) ::
                repeat (0, 0) (Z.to_nat (to_ulong NumBytes) - S (length bs))), 0
       | |- context [map (EvRx _ 0) ?bs ++ [EvPort _; EvPin ?p]] =>
           eexists _, _, _, _, _, (received bs), p
       | _ =>
           eexists _, _, _, _, _, (repeat (0, 0) (Z.to_nat (to_ulong NumBytes))), 0
       end.
  all: lazymatch goal with
       | |- _ /\ _ ++ ?leaf = _ ++ until_failed ?script /\ _ =>
           let Hcut := fresh "Hcut" in
           assert (Hcut : leaf = until_failed script)
             by (cbn [app]; replay;
                 first [ apply cut_receptions_failed; assumption
                       | apply cut_receptions; replay ]);
           rewrite <- Hcut; clear Hcut
       end.
  all: split; [unfold received; rewrite ?length_app, ?length_map, ?repeat_length;
               cbn [length]; rewrite ?repeat_length; lia |].
  all: split; [reflexivity |].
  all: split; [unfold all_passed; cbn [forallb snd write_port read_pin read_pin_high transmit app];
               rewrite ?forallb_app;
               try (rewrite (all_passed_received (SPIFALSE hw)));
               try (rewrite (all_passed_not_received (SPIFALSE hw)) by assumption);
               settle_script; try reflexivity |].
  all: split; [read_trace; reflexivity |].
  all: split; [reflexivity |].
  all: split; [intros i; read_bytes; reflexivity |].
  all: read_faults.
  all: split; intros Hf;
    first [ discriminate Hf | read_trace; reflexivity
          | exfalso; revert Hf; use_facts; cbn [negb orb]; discriminate ].
  Unshelve. all: exact 0.
Qed.

(** ** WakeMem, WriteMemStatus, SleepMem, CheckWIP and SendAddress *)

Lemma status_of_flag (c : bool) :
  (if c then MEMSUCC else MEMFAIL) = MEMSUCC <-> c = true.
Proof. destruct c; split; intros H; first [reflexivity | discriminate H]. Qed.

Lemma status_is_one_of_two (c : bool) :
  (if c then MEMSUCC else MEMFAIL) = MEMSUCC \/
  (if c then MEMSUCC else MEMFAIL) = MEMFAIL.
Proof. destruct c; [left | right]; reflexivity. Qed.

(** Spells out, step by step, that all the steps of a script passed. *)
Ltac spell_passed :=
  cbn [all_passed forallb snd write_port read_pin read_pin_high read_pin_low
       transmit receive];
  cbn [negb andb];
  rewrite ?andb_true_r, ?andb_true_iff, ?negb_involutive, ?negb_true_iff,
          ?Z.eqb_eq.

(** Runs a script whose statuses are known. *)
Ltac run_script :=
  cbn [until_failed write_port read_pin read_pin_high read_pin_low
       transmit receive Z.eqb negb];
  cbn [port_writes last tx_bytes rx_bytes rx_count Z.eqb existsb faulted
       negb orb app].

(** C7, as the code has it: WakeMem drives chip-select low, sends 0xAB and
    the three bytes 0xA5 of the dummy address, receives one byte, drives
    chip-select high and reads the line back; it does these steps in this
    order and stops after the first transfer that fails.  It returns
    MEMSUCC exactly when the four transmissions and the reception succeed,
    the chip-select line reads back high after the deselect and the byte
    is 0x29, and MEMFAIL otherwise: so whenever the byte is not 0x29, and
    then, when every transfer succeeded, with chip-select driven high. *)
Theorem WakeMem_checks_signature (chip : Z) (w : world D) :
  let r := fst (WakeMem chip w) in
  let w' := snd (WakeMem chip w) in
  let cs := GetCS chip in
  let low := to_uint8 (port_clear (ContPort w) cs) in
  let high := to_uint8 (port_set low cs) in
  exists p1 rc1 rc2 rc3 rc4 rc5 b p2,
    let script :=
      [write_port low; read_pin p1;
       transmit 0xAB rc1; transmit 0xA5 rc2; transmit 0xA5 rc3; transmit 0xA5 rc4;
       receive (SPIFALSE hw) rc5 b;
       write_port high; read_pin_high p2 cs] in
    trace w' = trace w ++ until_failed script /\
    (r = MEMSUCC \/ r = MEMFAIL) /\
    (r = MEMSUCC <->
       rc1 = 0 /\ rc2 = 0 /\ rc3 = 0 /\ rc4 = 0 /\ rc5 = 0 /\
       Z.testbit p2 cs = true /\ b = 0x29) /\
    (b <> 0x29 -> r = MEMFAIL) /\
    (rc1 = 0 -> rc2 = 0 -> rc3 = 0 -> rc4 = 0 -> rc5 = 0 ->
       port_writes (until_failed script) = [low; high] /\
       ContPort w' = high /\ Z.testbit (ContPort w') cs = true) /\
    ContPort w' = last (port_writes (until_failed script)) (ContPort w) /\
    ContDDR w' = ContDDR w.
Proof.
  cbv zeta. pose proof (GetCS_range chip) as Hcs.
  destruct (WakeMem_steps chip w)
    as (p1 & rc1 & rc2 & rc3 & rc4 & rc5 & b & p2 & d & E).
  cbv zeta in E. rewrite E. cbn [fst snd trace ContPort ContDDR].
  exists p1, rc1, rc2, rc3, rc4, rc5, b, p2.
  split; [reflexivity |].
  split; [apply status_is_one_of_two |].
  assert (Hr : forall c : bool,
             (if c then MEMSUCC else MEMFAIL) <> MEMSUCC ->
             (if c then MEMSUCC else MEMFAIL) = MEMFAIL).
  { intros [|] H; [contradiction H |]; reflexivity. }
  split; [| split; [| split; [| split; reflexivity]]].
  - rewrite status_of_flag, andb_true_iff, Z.eqb_eq. spell_passed. tauto.
  - intros Hb. apply Hr. rewrite status_of_flag, andb_true_iff, Z.eqb_eq. tauto.
  - intros -> -> -> -> ->. run_script.
    destruct (Z.testbit p2 (GetCS chip)); run_script.
    all: split; [reflexivity | split; [reflexivity | apply port_set_bit; lia]].
Qed.

Lemma failed_status (c : bool) :
  (if c then MEMSUCC else MEMFAIL) = MEMFAIL <-> c = false.
Proof. destruct c; split; intros H; first [reflexivity | discriminate H]. Qed.

(** C5: WriteMemStatus drives write-protect high and reads the line back,
    selects the chip and sends 0x01 and the status byte, drives
    write-protect low and reads the line back, selects the chip again,
    sends 0x05 and receives the status; it does these steps in this order
    and stops after the first that fails.  It returns MEMSUCC exactly when
    write-protect read back high and then low, the four transfers succeeded
    and the byte read back agrees with the byte sent on the bits of mask
    0x8C; when all the steps went through, it returns MEMFAIL exactly when
    the two differ on these bits. *)
Theorem WriteMemStatus_verifies_mask (chip v : Z) (w : world D) :
  let r := fst (WriteMemStatus chip v w) in
  let w' := snd (WriteMemStatus chip v w) in
  let cs := GetCS chip in
  let wp := GetWP chip in
  let p1 := to_uint8 (port_set (ContPort w) wp) in
  let p2 := to_uint8 (port_clear p1 cs) in
  let p3 := to_uint8 (port_clear p2 wp) in
  let p4 := to_uint8 (port_clear p3 cs) in
  exists q1 q2 rc1 rc2 q3 q4 rc3 rc4 s,
    let script :=
      [write_port p1; read_pin_high q1 wp;
       write_port p2; read_pin q2; transmit 0x01 rc1; transmit v rc2;
       write_port p3; read_pin_low q3 wp;
       write_port p4; read_pin q4; transmit 0x05 rc3;
       receive (SPIFALSE hw) rc4 s] in
    let passed :=
      Z.testbit q1 wp = true /\ rc1 = 0 /\ rc2 = 0 /\
      Z.testbit q3 wp = false /\ rc3 = 0 /\ rc4 = 0 in
    trace w' = trace w ++ until_failed script /\
    (Z.testbit p1 wp = true /\ Z.testbit p2 wp = true /\
     Z.testbit p3 wp = false /\ Z.testbit p4 wp = false) /\
    (r = MEMSUCC \/ r = MEMFAIL) /\
    (r = MEMSUCC <-> passed /\ Z.land v 0x8C = Z.land s 0x8C) /\
    (passed -> until_failed script = map fst script) /\
    (passed -> (r = MEMFAIL <-> Z.land v 0x8C <> Z.land s 0x8C)) /\
    ContPort w' = last (port_writes (until_failed script)) (ContPort w) /\
    ContDDR w' = ContDDR w.
Proof.
  cbv zeta.
  pose proof (GetCS_range chip) as Hcs. pose proof (GetWP_range chip) as Hwp.
  destruct (WriteMemStatus_steps chip v w)
    as (q1 & q2 & rc1 & rc2 & q3 & q4 & rc3 & rc4 & s & d & E).
  cbv zeta in E. rewrite E. cbn [fst snd trace ContPort ContDDR].
  exists q1, q2, rc1, rc2, q3, q4, rc3, rc4, s.
  split; [reflexivity |].
  split.
  { split; [apply port_set_bit; lia |].
    split; [rewrite port_clear_other by lia; apply port_set_bit; lia |].
    split; [apply port_clear_bit; lia |].
    rewrite port_clear_other by lia. apply port_clear_bit; lia. }
  split; [apply status_is_one_of_two |].
  assert (Hpassed :
            all_passed
              [write_port (to_uint8 (port_set (ContPort w) (GetWP chip)));
               read_pin_high q1 (GetWP chip);
               write_port
                 (to_uint8
                    (port_clear
                       (to_uint8 (port_set (ContPort w) (GetWP chip)))
                       (GetCS chip)));
               read_pin q2; transmit 1 rc1; transmit v rc2;
               write_port
                 (to_uint8
                    (port_clear
                       (to_uint8
                          (port_clear
                             (to_uint8 (port_set (ContPort w) (GetWP chip)))
                             (GetCS chip)))
                       (GetWP chip)));
               read_pin_low q3 (GetWP chip);
               write_port
                 (to_uint8
                    (port_clear
                       (to_uint8
                          (port_clear
                             (to_uint8
                                (port_clear
                                   (to_uint8
                                      (port_set (ContPort w) (GetWP chip)))
                                   (GetCS chip)))
                             (GetWP chip)))
                       (GetCS chip)));
               read_pin q4; transmit 5 rc3; receive (SPIFALSE hw) rc4 s] = true <->
            Z.testbit q1 (GetWP chip) = true /\ rc1 = 0 /\ rc2 = 0 /\
            Z.testbit q3 (GetWP chip) = false /\ rc3 = 0 /\ rc4 = 0).
  { spell_passed. tauto. }
  split; [| split; [| split; [| split; reflexivity]]].
  - rewrite status_of_flag, andb_true_iff, Z.eqb_eq, Hpassed. tauto.
  - intros H. apply until_failed_passed, Hpassed, H.
  - intros H. apply Hpassed in H. rewrite H. cbn [andb].
    rewrite failed_status, Z.eqb_neq. tauto.
Qed.

(** SleepMem, with WP_USED == MEMFALSE, drives chip-select low and
    tests the read-back, drives it low again for the command (SendCommand
    selects the chip itself), sends the deep power-down opcode 0xB9, drives
    chip-select high and tests the read-back; it does these steps in this
    order and stops after the first that fails.  It returns MEMSUCC exactly
    when chip-select read back low, the transmission succeeded and
    chip-select read back high, and MEMFAIL otherwise.  None of the values
    it writes to the output register differs from the value the register
    had in a line other than this chip-select: the write-protect lines stay
    as they were. *)
Lemma SleepMem_sends_power_down (chip : Z) (w : world D) :
  let r := fst (SleepMem chip w) in
  let w' := snd (SleepMem chip w) in
  let cs := GetCS chip in
  let low := to_uint8 (port_clear (ContPort w) cs) in
  let low' := to_uint8 (port_clear low cs) in
  let high := to_uint8 (port_set low' cs) in
  exists p1 p2 rc p3,
    let script :=
      [write_port low; read_pin_low p1 cs;
       write_port low'; read_pin p2; transmit 0xB9 rc;
       write_port high; read_pin_high p3 cs] in
    trace w' = trace w ++ until_failed script /\
    (r = MEMSUCC \/ r = MEMFAIL) /\
    (r = MEMSUCC <->
       Z.testbit p1 cs = false /\ rc = 0 /\ Z.testbit p3 cs = true) /\
    (r = MEMSUCC -> until_failed script = map fst script) /\
    (forall i, 0 <= i < 8 -> i <> cs ->
       Z.testbit low i = Z.testbit (ContPort w) i /\
       Z.testbit low' i = Z.testbit (ContPort w) i /\
       Z.testbit high i = Z.testbit (ContPort w) i) /\
    ContPort w' = last (port_writes (until_failed script)) (ContPort w) /\
    ContDDR w' = ContDDR w.
Proof.
  cbv zeta. pose proof (GetCS_range chip) as Hcs.
  destruct (SleepMem_steps chip w) as (p1 & p2 & rc & p3 & d & E).
  cbv zeta in E. rewrite E. cbn [fst snd trace ContPort ContDDR].
  exists p1, p2, rc, p3.
  split; [reflexivity |].
  split; [apply status_is_one_of_two |].
  split; [| split; [| split; [| split; reflexivity]]].
  - rewrite status_of_flag. spell_passed. tauto.
  - rewrite status_of_flag. apply until_failed_passed.
  - intros i Hi Hne.
    rewrite port_set_other, !port_clear_other by lia. repeat split.
Qed.

(** CheckWIP does what ReadMemStatus does: it drives chip-select low,
    reads the pin back, sends 0x05 and receives one byte, in this order,
    stopping after the first transfer that fails.  It returns MEMFAIL
    exactly when the transmission or the reception failed; otherwise
    MEMTRUE when bit 0 (WIP) of the byte received is set and MEMFALSE when
    it is clear; it returns nothing else. *)
Lemma CheckWIP_reads_bit_0 (chip : Z) (w : world D) :
  let r := fst (CheckWIP chip w) in
  let w' := snd (CheckWIP chip w) in
  let low := to_uint8 (port_clear (ContPort w) (GetCS chip)) in
  exists p rc1 rc2 b,
    let script := [write_port low; read_pin p;
                   transmit 0x05 rc1; receive (SPIFALSE hw) rc2 b] in
    trace w' = trace w ++ until_failed script /\
    (r = MEMTRUE \/ r = MEMFALSE \/ r = MEMFAIL) /\
    (r = MEMFAIL <-> ~ (rc1 = 0 /\ rc2 = 0)) /\
    (r = MEMTRUE <-> rc1 = 0 /\ rc2 = 0 /\ Z.testbit b 0 = true) /\
    (r = MEMFALSE <-> rc1 = 0 /\ rc2 = 0 /\ Z.testbit b 0 = false) /\
    ContPort w' = low /\ ContDDR w' = ContDDR w.
Proof.
  cbv zeta.
  destruct (CheckWIP_steps chip w) as (p & rc1 & rc2 & b & d & E).
  cbv zeta in E. rewrite E. cbn [fst snd trace ContPort ContDDR].
  exists p, rc1, rc2, b.
  split; [reflexivity |].
  cbn [all_passed forallb snd write_port read_pin transmit receive].
  cbn [negb andb]. rewrite !andb_true_r, !negb_involutive.
  destruct (Z.eqb_spec rc1 0) as [H1 | H1], (Z.eqb_spec rc2 0) as [H2 | H2],
    (Z.testbit b 0); cbn [andb].
  all: unfold MEMTRUE, MEMFALSE, MEMFAIL.
  all: intuition (try lia; try discriminate).
Qed.

(** SendAddress transmits bits 23-16, bits 15-8 and bits 7-0 of the
    address, in this order, stopping after the first transmission that
    fails, and does nothing else; the three bytes recompose to the address
    modulo 2^24, so the bits above bit 23 are not sent.  It returns MEMSUCC
    exactly when the three transmissions succeed and MEMFAIL otherwise; it
    leaves the registers as they were, and its chip argument plays no
    part. *)
Lemma SendAddress_sends_24_bits (chip Address : Z) (w : world D) :
  let r := fst (SendAddress chip Address w) in
  let w' := snd (SendAddress chip Address w) in
  let hi := Z.land (Z.shiftr Address 16) 0xFF in
  let mid := Z.land (Z.shiftr Address 8) 0xFF in
  let lo := Z.land Address 0xFF in
  hi * 65536 + mid * 256 + lo = Address mod 2 ^ 24 /\
  (forall i, 0 <= i < 8 ->
     Z.testbit hi i = Z.testbit Address (16 + i) /\
     Z.testbit mid i = Z.testbit Address (8 + i) /\
     Z.testbit lo i = Z.testbit Address i) /\
  (forall chip', SendAddress chip' Address w = SendAddress chip Address w) /\
  exists rc1 rc2 rc3,
    let script := [transmit hi rc1; transmit mid rc2; transmit lo rc3] in
    trace w' = trace w ++ until_failed script /\
    (r = MEMSUCC \/ r = MEMFAIL) /\
    (r = MEMSUCC <-> rc1 = 0 /\ rc2 = 0 /\ rc3 = 0) /\
    (r = MEMSUCC ->
       until_failed script = [EvTx hi 0; EvTx mid 0; EvTx lo 0]) /\
    ContPort w' = ContPort w /\ ContDDR w' = ContDDR w.
Proof.
  cbv zeta. split; [apply address_bytes_recompose |].
  split.
  { intros i Hi. rewrite (address_byte Address 16), (address_byte Address 8) by lia.
    pose proof (address_byte Address 0 i) as H0.
    rewrite Z.shiftr_0_r in H0. rewrite H0 by lia. repeat split. }
  split; [reflexivity |].
  destruct (SendAddress_steps chip Address w) as (rc1 & rc2 & rc3 & d & E).
  cbv zeta in E. rewrite E. cbn [fst snd trace ContPort ContDDR].
  exists rc1, rc2, rc3.
  split; [reflexivity |].
  split; [apply status_is_one_of_two |].
  assert (Hpassed :
            all_passed [transmit (Z.land (Z.shiftr Address 16) 255) rc1;
                        transmit (Z.land (Z.shiftr Address 8) 255) rc2;
                        transmit (Z.land Address 255) rc3] = true <->
            rc1 = 0 /\ rc2 = 0 /\ rc3 = 0).
  { spell_passed. tauto. }
  split; [| split; [| split; reflexivity]].
  - rewrite status_of_flag. exact Hpassed.
  - rewrite status_of_flag. intros H. apply Hpassed in H as (-> & -> & ->).
    reflexivity.
Qed.

(** ** Scripts with receptions *)

Lemma well_flagged_app (s1 s2 : list step) :
  well_flagged s1 -> well_flagged s2 -> well_flagged (s1 ++ s2).
Proof. intros H1 H2. apply Forall_app. split; assumption. Qed.

Lemma well_flagged_receptions (flag : Z) (rxs : list (Z * Z)) :
  well_flagged (receptions flag rxs).
Proof.
  induction rxs as [| x rxs IH]; [apply Forall_nil |].
  apply Forall_cons; [| exact IH]. cbn. intros H. exact H.
Qed.

Lemma passed_is_clean (s : list step) :
  well_flagged s -> all_passed s = true ->
  existsb faulted (until_failed s) = false.
Proof.
  induction s as [| [e g] s IH]; intros Hwf Hp; [reflexivity |].
  inversion Hwf as [| x l Hx Hrest]; subst. cbn [fst snd] in Hx.
  cbn [all_passed forallb snd] in Hp. apply andb_true_iff in Hp as [Hg Hp].
  destruct g; [discriminate Hg |]. cbn [until_failed existsb].
  destruct (faulted e); [specialize (Hx eq_refl); discriminate Hx |].
  cbn [orb]. apply IH; assumption.
Qed.

Lemma fault_found (pre : list event) (e : event) (post : list event) :
  faulted e = true -> existsb faulted (pre ++ e :: post) = true.
Proof.
  intros He. rewrite existsb_app. cbn [existsb]. rewrite He.
  apply orb_true_r.
Qed.

(** A transfer that failed is the last thing done, and not all the steps
    passed. *)
Lemma fault_stops (s : list step) :
  well_flagged s ->
  forall pre e post,
    until_failed s = pre ++ e :: post -> faulted e = true ->
    post = [] /\ all_passed s = false /\
    existsb faulted (until_failed s) = true.
Proof.
  intros Hwf pre e post Hl He.
  split; [exact (fault_is_last s Hwf pre e post Hl He) |].
  assert (Hex : existsb faulted (until_failed s) = true).
  { rewrite Hl. apply fault_found, He. }
  split; [| exact Hex].
  destruct (all_passed s) eqn:Hp; [| reflexivity].
  rewrite (passed_is_clean s Hwf Hp) in Hex. discriminate Hex.
Qed.

Lemma all_passed_receptions (flag : Z) (rxs : list (Z * Z)) :
  all_passed (receptions flag rxs) = true <-> Forall (fun x => fst x = 0) rxs.
Proof.
  induction rxs as [| x rxs IH].
  - split; [intros _; apply Forall_nil | reflexivity].
  - cbn [receptions map all_passed forallb receive snd].
    rewrite negb_involutive, andb_true_iff, Z.eqb_eq.
    fold (receptions flag rxs). fold (all_passed (receptions flag rxs)).
    rewrite IH. split.
    + intros [H1 H2]. apply Forall_cons; assumption.
    + intros H. inversion H; subst. split; assumption.
Qed.

Lemma receptions_passed (flag : Z) (rxs : list (Z * Z)) :
  let done := @map step event fst (receptions flag rxs) in
  port_writes done = [] /\
  rx_count done = length rxs /\
  (Forall (fun x => fst x = 0) rxs -> rx_bytes done = map snd rxs).
Proof.
  cbv zeta.
  induction rxs as [| x rxs (IH1 & IH2 & IH3)]; [repeat split |].
  cbn [receptions map fst receive port_writes rx_count rx_bytes length].
  fold (receptions flag rxs).
  split; [exact IH1 |]. split; [rewrite IH2; reflexivity |].
  intros H. inversion H as [| y l Hx Hrest]; subst. rewrite Hx.
  change (0 =? 0) with true. cbv iota. rewrite (IH3 Hrest). reflexivity.
Qed.

(** As long as receptions succeed, the next one is made. *)
Lemma keeps_receiving (flag : Z) (tail : list step) (rxs : list (Z * Z)) :
  forall k : nat,
    (k < length rxs)%nat ->
    Forall (fun x => fst x = 0) (firstn k rxs) ->
    (k < rx_count (until_failed (receptions flag rxs ++ tail)))%nat.
Proof.
  induction rxs as [| x rxs IH]; intros k Hk Hfirst; cbn [length] in Hk; [lia |].
  cbn [receptions map app until_failed receive]. fold (receptions flag rxs).
  destruct k as [| k].
  - destruct (negb (fst x =? 0)); cbn [rx_count]; lia.
  - cbn [firstn] in Hfirst. inversion Hfirst as [| y l Hx Hrest]; subst.
    rewrite Hx. change (negb (0 =? 0)) with false. cbv iota. cbn [rx_count].
    apply -> Nat.succ_lt_mono. apply IH; [lia | exact Hrest].
Qed.

(** What a run of ReadData comes to, for [n] the count converted to
    unsigned long. *)
Lemma ReadData_outcome (chip Address NumBytes : Z) (data : Z -> Z) (w : world D) :
  let r := fst (fst (ReadData chip Address NumBytes data w)) in
  let data' := snd (fst (ReadData chip Address NumBytes data w)) in
  let w' := snd (ReadData chip Address NumBytes data w) in
  let cs := GetCS chip in
  let low := to_uint8 (port_clear (ContPort w) cs) in
  let high := to_uint8 (port_set low cs) in
  let hi := Z.land (Z.shiftr Address 16) 0xFF in
  let mid := Z.land (Z.shiftr Address 8) 0xFF in
  let lo := Z.land Address 0xFF in
  exists p1 rc1 rc2 rc3 rc4 rxs p2,
    let script :=
      [write_port low; read_pin p1;
       transmit 0x03 rc1; transmit hi rc2; transmit mid rc3; transmit lo rc4]
      ++ receptions (SPIFALSE hw) rxs
      ++ [write_port high; read_pin_high p2 cs] in
    Z.of_nat (length rxs) = to_ulong NumBytes /\
    trace w' = trace w ++ until_failed script /\
    (r = MEMSUCC \/ r = MEMFAIL) /\
    (r = MEMSUCC <->
       rc1 = 0 /\ rc2 = 0 /\ rc3 = 0 /\ rc4 = 0 /\
       Forall (fun x => fst x = 0) rxs /\ Z.testbit p2 cs = true) /\
    (r = MEMSUCC ->
       until_failed script = map fst script /\
       ContPort w' = high /\
       forall i, data' i =
                 if (0 <=? i) && (i <? to_ulong NumBytes)
                 then nth (Z.to_nat i) (map snd rxs) 0 else data i) /\
    (forall k : nat,
       (k < length rxs)%nat ->
       rc1 = 0 -> rc2 = 0 -> rc3 = 0 -> rc4 = 0 ->
       Forall (fun x => fst x = 0) (firstn k rxs) ->
       (k < rx_count (until_failed script))%nat) /\
    (forall i, data' i = fill data 0 (rx_bytes (until_failed script)) i) /\
    ContPort w' = last (port_writes (until_failed script)) (ContPort w) /\
    ContDDR w' = ContDDR w.
Proof.
  cbv zeta. pose proof (to_ulong_range NumBytes) as Hn.
  destruct (ReadData_steps chip Address NumBytes data w)
    as (p1 & rc1 & rc2 & rc3 & rc4 & rxs & p2 &
        Hlen & Ht & Hr & Hport & Hddr & Hdata & _ & _).
  cbv zeta in Hlen, Ht, Hr, Hport, Hddr, Hdata.
  exists p1, rc1, rc2, rc3, rc4, rxs, p2.
  split; [lia |]. split; [exact Ht |].
  rewrite Hr. split; [apply status_is_one_of_two |].
  match type of Hr with
  | _ = if all_passed ?s then _ else _ =>
      assert (Hpassed : all_passed s = true <->
                rc1 = 0 /\ rc2 = 0 /\ rc3 = 0 /\ rc4 = 0 /\
                Forall (fun x => fst x = 0) rxs /\
                Z.testbit p2 (GetCS chip) = true)
  end.
  { rewrite !all_passed_app, !andb_true_iff, all_passed_receptions.
    spell_passed. tauto. }
  split; [rewrite status_of_flag; exact Hpassed |].
  split; [| split; [| split; [exact Hdata | split; assumption]]].
  - rewrite status_of_flag. intros Hp.
    pose proof (until_failed_passed _ Hp) as Hdone.
    apply Hpassed in Hp as (_ & _ & _ & _ & Hrxs & _).
    destruct (receptions_passed (SPIFALSE hw) rxs) as (Hpw & _ & Hbytes).
    specialize (Hbytes Hrxs).
    split; [exact Hdone |].
    split.
    + rewrite Hport, Hdone, !map_app, !port_writes_app, Hpw. reflexivity.
    + intros i. rewrite Hdata, Hdone, !map_app, !rx_bytes_app, Hbytes.
      cbn [map fst write_port read_pin read_pin_high transmit rx_bytes app].
      rewrite app_nil_r, fill_from_0, length_map.
      replace (Z.of_nat (length rxs)) with (to_ulong NumBytes) by lia.
      reflexivity.
  - intros k Hk -> -> -> -> Hfirst.
    cbn [app until_failed write_port read_pin transmit Z.eqb negb rx_count].
    apply keeps_receiving; assumption.
Qed.

(** ** ReadData *)

(** C8, as the code has it: for a count N from 0 to 0x7FFFFFFF, ReadData
    drives chip-select low, sends 0x03 and bits 23-16, 15-8 and 7-0 of the
    address, makes N receptions, drives chip-select high and reads the line
    back; it does these steps in this order, once, and stops after the
    first transfer that fails, so as long as receptions succeed the next
    one is made, up to N.  It returns MEMSUCC exactly when the four
    transmissions and the N receptions succeed and the chip-select line
    reads back high after the deselect, and MEMFAIL otherwise; on success
    all the steps were done, chip-select is driven high and the buffer
    holds the N bytes in order.  Nothing else is transmitted: no
    write-enable, no status read, no second address. *)
Theorem ReadData_frames_once (chip Address NumBytes : Z) (data : Z -> Z)
    (w : world D) :
  0 <= NumBytes <= 0x7FFFFFFF ->
  let r := fst (fst (ReadData chip Address NumBytes data w)) in
  let data' := snd (fst (ReadData chip Address NumBytes data w)) in
  let w' := snd (ReadData chip Address NumBytes data w) in
  let cs := GetCS chip in
  let low := to_uint8 (port_clear (ContPort w) cs) in
  let high := to_uint8 (port_set low cs) in
  let hi := Z.land (Z.shiftr Address 16) 0xFF in
  let mid := Z.land (Z.shiftr Address 8) 0xFF in
  let lo := Z.land Address 0xFF in
  exists p1 rc1 rc2 rc3 rc4 rxs p2,
    let script :=
      [write_port low; read_pin p1;
       transmit 0x03 rc1; transmit hi rc2; transmit mid rc3; transmit lo rc4]
      ++ receptions (SPIFALSE hw) rxs
      ++ [write_port high; read_pin_high p2 cs] in
    Z.of_nat (length rxs) = NumBytes /\
    trace w' = trace w ++ until_failed script /\
    (r = MEMSUCC \/ r = MEMFAIL) /\
    (r = MEMSUCC <->
       rc1 = 0 /\ rc2 = 0 /\ rc3 = 0 /\ rc4 = 0 /\
       Forall (fun x => fst x = 0) rxs /\ Z.testbit p2 cs = true) /\
    (r = MEMSUCC ->
       until_failed script = map fst script /\
       ContPort w' = high /\
       forall i, data' i =
                 if (0 <=? i) && (i <? NumBytes)
                 then nth (Z.to_nat i) (map snd rxs) 0 else data i) /\
    (forall k : nat,
       (k < length rxs)%nat ->
       rc1 = 0 -> rc2 = 0 -> rc3 = 0 -> rc4 = 0 ->
       Forall (fun x => fst x = 0) (firstn k rxs) ->
       (k < rx_count (until_failed script))%nat) /\
    (forall i, data' i = fill data 0 (rx_bytes (until_failed script)) i) /\
    (forall i, 0 <= i < 8 ->
       Z.testbit hi i = Z.testbit Address (16 + i) /\
       Z.testbit mid i = Z.testbit Address (8 + i) /\
       Z.testbit lo i = Z.testbit Address i) /\
    ContPort w' = last (port_writes (until_failed script)) (ContPort w) /\
    ContDDR w' = ContDDR w.
Proof.
  intros HN. cbv zeta.
  assert (Hcount : to_ulong NumBytes = NumBytes).
  { unfold to_ulong, to_unsigned. apply Z.mod_small. simpl. lia. }
  destruct (ReadData_outcome chip Address NumBytes data w)
    as (p1 & rc1 & rc2 & rc3 & rc4 & rxs & p2 &
        Hlen & Ht & Hr & Hiff & Hsucc & Hkeeps & Hdata & Hport & Hddr).
  cbv zeta in Hlen, Ht, Hr, Hiff, Hsucc, Hkeeps, Hdata, Hport, Hddr.
  rewrite Hcount in Hlen, Hsucc.
  exists p1, rc1, rc2, rc3, rc4, rxs, p2.
  split; [exact Hlen |]. split; [exact Ht |]. split; [exact Hr |].
  split; [exact Hiff |]. split; [exact Hsucc |]. split; [exact Hkeeps |].
  split; [exact Hdata |].
  split; [| split; assumption].
  intros i Hi. rewrite (address_byte Address 16), (address_byte Address 8) by lia.
  pose proof (address_byte Address 0 i) as H0.
  rewrite Z.shiftr_0_r in H0. rewrite H0 by lia. repeat split.
Qed.

(** The loop of ReadData compares its unsigned long counter with the
    count converted to unsigned long (32 bits on the AVR target).  With a
    negative count N >= -0x80000000 ReadData therefore does not read
    nothing: after the command and the address it goes for N + 2^32
    receptions; as long as receptions succeed the next one is made, each
    byte received is stored into the buffer from index 0 on, and it returns
    MEMSUCC only when all N + 2^32 receptions succeeded. *)
Lemma ReadData_negative_count_is_huge
    (chip Address NumBytes : Z) (data : Z -> Z) (w : world D) :
  -0x80000000 <= NumBytes < 0 ->
  let r := fst (fst (ReadData chip Address NumBytes data w)) in
  let data' := snd (fst (ReadData chip Address NumBytes data w)) in
  let w' := snd (ReadData chip Address NumBytes data w) in
  let cs := GetCS chip in
  let low := to_uint8 (port_clear (ContPort w) cs) in
  let high := to_uint8 (port_set low cs) in
  let hi := Z.land (Z.shiftr Address 16) 0xFF in
  let mid := Z.land (Z.shiftr Address 8) 0xFF in
  let lo := Z.land Address 0xFF in
  exists p1 rc1 rc2 rc3 rc4 rxs p2,
    let script :=
      [write_port low; read_pin p1;
       transmit 0x03 rc1; transmit hi rc2; transmit mid rc3; transmit lo rc4]
      ++ receptions (SPIFALSE hw) rxs
      ++ [write_port high; read_pin_high p2 cs] in
    Z.of_nat (length rxs) = NumBytes + 2 ^ 32 /\
    trace w' = trace w ++ until_failed script /\
    (r = MEMSUCC <->
       rc1 = 0 /\ rc2 = 0 /\ rc3 = 0 /\ rc4 = 0 /\
       Forall (fun x => fst x = 0) rxs /\ Z.testbit p2 cs = true) /\
    (rc1 = 0 -> rc2 = 0 -> rc3 = 0 -> rc4 = 0 ->
     forall k : nat,
       Z.of_nat k < NumBytes + 2 ^ 32 ->
       Forall (fun x => fst x = 0) (firstn k rxs) ->
       (k < rx_count (until_failed script))%nat) /\
    (r = MEMSUCC ->
       Z.of_nat (rx_count (until_failed script)) = NumBytes + 2 ^ 32) /\
    (forall i, data' i =
               if (0 <=? i) && (i <? Z.of_nat (length (rx_bytes (until_failed script))))
               then nth (Z.to_nat i) (rx_bytes (until_failed script)) 0
               else data i).
Proof.
  intros HN. cbv zeta.
  assert (Hcount : to_ulong NumBytes = NumBytes + 2 ^ 32).
  { unfold to_ulong, to_unsigned.
    rewrite <- (Z.mod_add NumBytes 1 (2 ^ 32)) by (simpl; lia).
    rewrite Z.mul_1_l. apply Z.mod_small. simpl. lia. }
  destruct (ReadData_outcome chip Address NumBytes data w)
    as (p1 & rc1 & rc2 & rc3 & rc4 & rxs & p2 &
        Hlen & Ht & Hr & Hiff & Hsucc & Hkeeps & Hdata & Hport & Hddr).
  cbv zeta in Hlen, Ht, Hr, Hiff, Hsucc, Hkeeps, Hdata, Hport, Hddr.
  rewrite Hcount in Hlen.
  exists p1, rc1, rc2, rc3, rc4, rxs, p2.
  split; [exact Hlen |]. split; [exact Ht |]. split; [exact Hiff |].
  split; [| split].
  - intros H1 H2 H3 H4 k Hk Hfirst. apply Hkeeps; try assumption. lia.
  - intros Hs. destruct (Hsucc Hs) as (Hdone & _).
    rewrite Hdone, !map_app, !rx_count_app.
    rewrite (proj1 (proj2 (receptions_passed (SPIFALSE hw) rxs))).
    cbn [map fst write_port read_pin read_pin_high transmit rx_count].
    lia.
  - intros i. rewrite Hdata. apply fill_from_0.
Qed.

(** ** Chip-select at the return *)

Lemma WakeMem_success_deselects (chip : Z) (w : world D) :
  fst (WakeMem chip w) = MEMSUCC ->
  Z.testbit (ContPort (snd (WakeMem chip w))) (GetCS chip) = true.
Proof.
  pose proof (GetCS_range chip) as Hcs.
  destruct (WakeMem_steps chip w)
    as (p1 & rc1 & rc2 & rc3 & rc4 & rc5 & b & p2 & d & E).
  cbv zeta in E. rewrite E. cbn [fst snd ContPort].
  rewrite status_of_flag, andb_true_iff. intros [Hp _].
  rewrite (until_failed_passed _ Hp).
  cbn [map fst write_port read_pin read_pin_high transmit receive
       port_writes last].
  apply port_set_bit. lia.
Qed.

Lemma SleepMem_success_deselects (chip : Z) (w : world D) :
  fst (SleepMem chip w) = MEMSUCC ->
  Z.testbit (ContPort (snd (SleepMem chip w))) (GetCS chip) = true.
Proof.
  pose proof (GetCS_range chip) as Hcs.
  destruct (SleepMem_steps chip w) as (p1 & p2 & rc & p3 & d & E).
  cbv zeta in E. rewrite E. cbn [fst snd ContPort].
  rewrite status_of_flag. intros Hp.
  rewrite (until_failed_passed _ Hp).
  cbn [map fst write_port read_pin read_pin_high read_pin_low transmit
       port_writes last].
  apply port_set_bit. lia.
Qed.

Lemma ReadData_success_deselects (chip Address NumBytes : Z) (data : Z -> Z)
    (w : world D) :
  fst (fst (ReadData chip Address NumBytes data w)) = MEMSUCC ->
  Z.testbit (ContPort (snd (ReadData chip Address NumBytes data w)))
            (GetCS chip) = true.
Proof.
  pose proof (GetCS_range chip) as Hcs.
  destruct (ReadData_outcome chip Address NumBytes data w)
    as (p1 & rc1 & rc2 & rc3 & rc4 & rxs & p2 &
        _ & _ & _ & _ & Hsucc & _).
  cbv zeta in Hsucc. intros Hs. destruct (Hsucc Hs) as (_ & -> & _).
  apply port_set_bit. lia.
Qed.

(** C6: ReadMemStatus drives chip-select low, reads the pin back, sends
    0x05 and receives one byte, in this order, stopping after the
    transmission when it fails.  It returns MEMSUCC exactly when the
    transmission and the reception succeed, and then hands out the byte
    received.  It writes the output register once, to drive chip-select
    low, and never again: it returns, on success as on failure, with
    chip-select driven low.  WakeMem, SleepMem and ReadData, by contrast,
    return success with chip-select driven high. *)
Theorem ReadMemStatus_leaves_chip_selected (chip status : Z) (w : world D) :
  let r := fst (fst (ReadMemStatus chip status w)) in
  let status' := snd (fst (ReadMemStatus chip status w)) in
  let w' := snd (ReadMemStatus chip status w) in
  let cs := GetCS chip in
  let low := to_uint8 (port_clear (ContPort w) cs) in
  (exists p rc1 rc2 b,
     let script := [write_port low; read_pin p;
                    transmit 0x05 rc1; receive (SPIFALSE hw) rc2 b] in
     trace w' = trace w ++ until_failed script /\
     (r = MEMSUCC \/ r = MEMFAIL) /\
     (r = MEMSUCC <-> rc1 = 0 /\ rc2 = 0) /\
     (r = MEMSUCC ->
        until_failed script =
          [EvPort low; EvPin p; EvTx 0x05 0; EvRx (SPIFALSE hw) 0 b] /\
        status' = b) /\
     port_writes (until_failed script) = [low] /\
     (rx_count (until_failed script) <= 1)%nat) /\
  ContPort w' = low /\
  Z.testbit (ContPort w') cs = false /\
  ContDDR w' = ContDDR w /\
  (fst (WakeMem chip w) = MEMSUCC ->
     Z.testbit (ContPort (snd (WakeMem chip w))) cs = true) /\
  (fst (SleepMem chip w) = MEMSUCC ->
     Z.testbit (ContPort (snd (SleepMem chip w))) cs = true) /\
  (forall Address NumBytes data,
     fst (fst (ReadData chip Address NumBytes data w)) = MEMSUCC ->
     Z.testbit (ContPort (snd (ReadData chip Address NumBytes data w))) cs = true).
Proof.
  cbv zeta. pose proof (GetCS_range chip) as Hcs.
  destruct (ReadMemStatus_steps chip status w) as (p & rc1 & rc2 & b & d & E).
  cbv zeta in E. rewrite E. cbn [fst snd trace ContPort ContDDR].
  split.
  { exists p, rc1, rc2, b.
    split; [reflexivity |].
    split; [apply status_is_one_of_two |].
    split; [rewrite status_of_flag; spell_passed; tauto |].
    split.
    - rewrite status_of_flag. intros Hp. rewrite Hp. split; [| reflexivity].
      revert Hp. spell_passed. intros [-> ->]. reflexivity.
    - run_script.
      destruct (rc1 =? 0); run_script; [| split; [reflexivity | lia]].
      destruct (rc2 =? 0); run_script; split; first [reflexivity | lia]. }
  split; [reflexivity |].
  split; [apply port_clear_bit; lia |].
  split; [reflexivity |].
  split; [apply WakeMem_success_deselects |].
  split; [apply SleepMem_success_deselects |].
  intros Address NumBytes data. apply ReadData_success_deselects.
Qed.

(** ** A transfer that fails *)

(** Goes through the steps of a script, one status after the other. *)
Ltac split_script :=
  repeat (run_script; use_facts; run_script;
          match goal with
          | |- context [if negb (?rc =? 0) then _ else _] =>
              destruct (rc =? 0) eqn:?
          | |- context [if negb (Z.testbit ?p ?l) then _ else _] =>
              destruct (Z.testbit p l) eqn:?
          | |- context [if Z.testbit ?p ?l then _ else _] =>
              destruct (Z.testbit p l) eqn:?
          end);
  run_script; use_facts; run_script.

(** After a transfer failed: the operation stopped there, returns MEMFAIL,
    and the last value it wrote to the output register has chip-select
    low. *)
Ltac stopped_selected E :=
  cbv zeta in E; rewrite E; cbn [fst snd trace ContPort];
  split; [reflexivity |];
  let pre := fresh "pre" in let e := fresh "e" in let post := fresh "post" in
  let Hl := fresh "Hl" in let He := fresh "He" in
  let Hpost := fresh "Hpost" in let Hfail := fresh "Hfail" in
  let Hex := fresh "Hex" in
  intros pre e post Hl He;
  match type of Hl with
  | until_failed ?s = _ =>
      destruct (fault_stops s ltac:(flagged) pre e post Hl He)
        as (Hpost & Hfail & Hex)
  end;
  split; [exact Hpost |]; rewrite Hfail; cbn [andb];
  split; [reflexivity |];
  clear Hl Hfail; revert Hex; split_script;
  intros Hex; first [discriminate Hex | apply port_clear_bit; lia].

(** C3, as the code has it: no operation has a clean-up path.  Each of
    WakeMem, ReadData, SleepMem, ReadMemStatus, CheckWIP and WriteMemStatus,
    and each of the two framing functions SendCommand and
    SendCommandAndAddress they are built from, does its steps in order and
    stops after the first that fails.  A transmission or reception that
    fails is therefore the last thing the operation does: it returns
    MEMFAIL at once, and chip-select, driven low before the first transfer,
    is still driven low.  WakeMem and ReadData drive chip-select high only
    as their last bus step, after every transfer has succeeded: when a
    transfer failed, low is the only value they wrote to the output
    register; when none failed they wrote low, then high, and return with
    chip-select driven high, whatever they return.  SleepMem, which tests
    the read-back of its select, returns MEMFAIL at once when the line does
    not read back low, having driven chip-select low and nothing else. *)
Theorem transport_fault_leaves_chip_selected
    (chip Address NumBytes status v : Z) (data : Z -> Z) (w : world D) :
  let cs := GetCS chip in
  let wp := GetWP chip in
  let low := to_uint8 (port_clear (ContPort w) cs) in
  let high := to_uint8 (port_set low cs) in
  let stops_selected (r : Z) (w' : world D) (script : list step) :=
    trace w' = trace w ++ until_failed script /\
    (forall pre e post,
       until_failed script = pre ++ e :: post -> faulted e = true ->
       post = [] /\ r = MEMFAIL /\ Z.testbit (ContPort w') cs = false) in
  let deselects_last (w' : world D) (script : list step) :=
    (existsb faulted (until_failed script) = true ->
       port_writes (until_failed script) = [low]) /\
    (existsb faulted (until_failed script) = false ->
       port_writes (until_failed script) = [low; high] /\
       ContPort w' = high /\ Z.testbit (ContPort w') cs = true) in
  (exists p1 rc1 rc2 rc3 rc4 rc5 b p2,
     let script :=
       [write_port low; read_pin p1;
        transmit 0xAB rc1; transmit 0xA5 rc2; transmit 0xA5 rc3;
        transmit 0xA5 rc4; receive (SPIFALSE hw) rc5 b;
        write_port high; read_pin_high p2 cs] in
     stops_selected (fst (WakeMem chip w)) (snd (WakeMem chip w)) script /\
     deselects_last (snd (WakeMem chip w)) script) /\
  (exists p1 rc1 rc2 rc3 rc4 rxs p2,
     let script :=
       [write_port low; read_pin p1;
        transmit 0x03 rc1;
        transmit (Z.land (Z.shiftr Address 16) 0xFF) rc2;
        transmit (Z.land (Z.shiftr Address 8) 0xFF) rc3;
        transmit (Z.land Address 0xFF) rc4]
       ++ receptions (SPIFALSE hw) rxs
       ++ [write_port high; read_pin_high p2 cs] in
     Z.of_nat (length rxs) = to_ulong NumBytes /\
     stops_selected (fst (fst (ReadData chip Address NumBytes data w)))
                    (snd (ReadData chip Address NumBytes data w)) script /\
     deselects_last (snd (ReadData chip Address NumBytes data w)) script) /\
  (exists p1 p2 rc p3,
     let low' := to_uint8 (port_clear low cs) in
     let script :=
       [write_port low; read_pin_low p1 cs;
        write_port low'; read_pin p2; transmit 0xB9 rc;
        write_port (to_uint8 (port_set low' cs)); read_pin_high p3 cs] in
     stops_selected (fst (SleepMem chip w)) (snd (SleepMem chip w)) script /\
     (Z.testbit p1 cs = true ->
        fst (SleepMem chip w) = MEMFAIL /\
        until_failed script = [EvPort low; EvPin p1] /\
        Z.testbit (ContPort (snd (SleepMem chip w))) cs = false)) /\
  (exists p rc1 rc2 b,
     let script := [write_port low; read_pin p;
                    transmit 0x05 rc1; receive (SPIFALSE hw) rc2 b] in
     stops_selected (fst (fst (ReadMemStatus chip status w)))
                    (snd (ReadMemStatus chip status w)) script) /\
  (exists p rc1 rc2 b,
     let script := [write_port low; read_pin p;
                    transmit 0x05 rc1; receive (SPIFALSE hw) rc2 b] in
     stops_selected (fst (CheckWIP chip w)) (snd (CheckWIP chip w)) script) /\
  (exists q1 q2 rc1 rc2 q3 q4 rc3 rc4 s,
     let p1 := to_uint8 (port_set (ContPort w) wp) in
     let p2 := to_uint8 (port_clear p1 cs) in
     let p3 := to_uint8 (port_clear p2 wp) in
     let p4 := to_uint8 (port_clear p3 cs) in
     let script :=
       [write_port p1; read_pin_high q1 wp;
        write_port p2; read_pin q2; transmit 0x01 rc1; transmit v rc2;
        write_port p3; read_pin_low q3 wp;
        write_port p4; read_pin q4; transmit 0x05 rc3;
        receive (SPIFALSE hw) rc4 s] in
     stops_selected (fst (WriteMemStatus chip v w))
                    (snd (WriteMemStatus chip v w)) script) /\
  (forall Command, exists p rc,
     let script := [write_port low; read_pin p; transmit Command rc] in
     stops_selected (fst (SendCommand chip Command w))
                    (snd (SendCommand chip Command w)) script) /\
  (forall Command, exists p rc1 rc2 rc3 rc4,
     let script :=
       [write_port low; read_pin p; transmit Command rc1;
        transmit (Z.land (Z.shiftr Address 16) 0xFF) rc2;
        transmit (Z.land (Z.shiftr Address 8) 0xFF) rc3;
        transmit (Z.land Address 0xFF) rc4] in
     stops_selected (fst (SendCommandAndAddress chip Command Address w))
                    (snd (SendCommandAndAddress chip Command Address w)) script).
Proof.
  cbv zeta. pose proof (GetCS_range chip) as Hcs.
  split; [| split; [| split; [| split; [| split; [| split; [| split]]]]]].
  - destruct (WakeMem_steps chip w)
      as (p1 & rc1 & rc2 & rc3 & rc4 & rc5 & b & p2 & d & E).
    exists p1, rc1, rc2, rc3, rc4, rc5, b, p2.
    split; [stopped_selected E |].
    cbv zeta in E. rewrite E. cbn [snd ContPort]. clear E.
    split; split_script; intros Hex; try discriminate Hex.
    all: first [ reflexivity
               | split; [reflexivity | split; [reflexivity |]];
                 apply port_set_bit; lia ].
  - destruct (ReadData_steps chip Address NumBytes data w)
      as (p1 & rc1 & rc2 & rc3 & rc4 & rxs & p2 &
          Hlen & Ht & Hr & Hport & Hddr & Hdata & Hf1 & Hf2).
    cbv zeta in Hlen, Ht, Hr, Hport, Hf1, Hf2.
    pose proof (to_ulong_range NumBytes) as Hn.
    exists p1, rc1, rc2, rc3, rc4, rxs, p2.
    split; [lia |]. split; [split; [exact Ht |] | split].
    + intros pre e post Hl He.
      match type of Hl with
      | until_failed ?s = _ =>
          assert (Hwf : well_flagged s)
            by (apply well_flagged_app;
                [flagged
                | apply well_flagged_app;
                  [apply well_flagged_receptions | flagged]]);
          destruct (fault_stops s Hwf pre e post Hl He)
            as (Hpost & Hfail & Hex)
      end.
      split; [exact Hpost |]. rewrite Hr, Hfail. split; [reflexivity |].
      rewrite Hport, (Hf1 Hex). cbn [last]. apply port_clear_bit. lia.
    + exact Hf1.
    + intros Hex. rewrite Hport, (Hf2 Hex). cbn [last].
      split; [reflexivity | split; [reflexivity |]]. apply port_set_bit. lia.
  - destruct (SleepMem_steps chip w) as (p1 & p2 & rc & p3 & d & E).
    exists p1, p2, rc, p3. split; [stopped_selected E |].
    cbv zeta in E. rewrite E. cbn [fst snd ContPort]. clear E.
    intros Hp. run_script.
    cbn [all_passed forallb snd write_port read_pin_low negb andb].
    rewrite Hp. run_script.
    split; [reflexivity | split; [reflexivity | apply port_clear_bit; lia]].
  - destruct (ReadMemStatus_steps chip status w) as (p & rc1 & rc2 & b & d & E).
    exists p, rc1, rc2, b. stopped_selected E.
  - destruct (CheckWIP_steps chip w) as (p & rc1 & rc2 & b & d & E).
    exists p, rc1, rc2, b. stopped_selected E.
  - destruct (WriteMemStatus_steps chip v w)
      as (q1 & q2 & rc1 & rc2 & q3 & q4 & rc3 & rc4 & s & d & E).
    exists q1, q2, rc1, rc2, q3, q4, rc3, rc4, s. stopped_selected E.
  - intros Command.
    destruct (SendCommand_steps chip Command w) as (p & rc & d & E).
    exists p, rc. stopped_selected E.
  - intros Command.
    destruct (SendCommandAndAddress_steps chip Command Address w)
      as (p & rc1 & rc2 & rc3 & rc4 & d & E).
    exists p, rc1, rc2, rc3, rc4. stopped_selected E.
Qed.

End Driver.

(** * The driver on concrete hardware *)

(** C2: WakeMem on chip 4 is served: the lookups give the lines of chip 0,
    the chip-select line of chip 0 is driven and the operation succeeds. *)
Lemma chip_4_is_served_as_chip_0 :
  GetCS 4 = CS0 /\ GetWP 4 = WP0 /\
  fst (WakeMem wired 4 (power_on (mkBench 10 0x29))) = MEMSUCC /\
  trace (snd (WakeMem wired 4 (power_on (mkBench 10 0x29)))) =
    [EvPort 0xFE; EvPin 0xFE;
     EvTx 0xAB 0; EvTx 0xA5 0; EvTx 0xA5 0; EvTx 0xA5 0; EvRx 0 0 0x29;
     EvPort 0xFF; EvPin 0xFF].
Proof. repeat split. Qed.

Lemma out_of_range_chip_is_chip_0_witness :
  (4 < 0 \/ 3 < 4) /\
  InitMem wired 4 (power_on (mkBench 10 0x29)) =
    (MEMFAIL, power_on (mkBench 10 0x29)) /\
  WakeMem wired 4 (power_on (mkBench 10 0x29)) =
    WakeMem wired 0 (power_on (mkBench 10 0x29)).
Proof.
  assert (H : 4 < 0 \/ 3 < 4) by (right; lia).
  split; [exact H |].
  pose proof (out_of_range_chip_is_chip_0 wired 0 4
                (power_on (mkBench 10 0x29)) H)
    as (_ & _ & HInit & _ & _ & HWake & _).
  split; [exact HInit | exact HWake].
Defined.

(** C3: the third transmission of WakeMem fails; WakeMem returns MEMFAIL
    and chip-select, driven low at the start, was not driven high. *)
Lemma WakeMem_fails_with_chip_selected :
  fst (WakeMem wired 0 (power_on (mkBench 2 0x29))) = MEMFAIL /\
  trace (snd (WakeMem wired 0 (power_on (mkBench 2 0x29)))) =
    [EvPort 0xFE; EvPin 0xFE; EvTx 0xAB 0; EvTx 0xA5 0; EvTx 0xA5 1] /\
  ContPort (snd (WakeMem wired 0 (power_on (mkBench 2 0x29)))) = 0xFE /\
  Z.testbit (ContPort (snd (WakeMem wired 0 (power_on (mkBench 2 0x29)))))
            (GetCS 0) = false.
Proof. repeat split. Qed.

(** C4: the code does not do what the specification says.  With chip-select
    reading back high, ClearCS reports the mismatch, SendCommand drops the
    report, and WakeMem goes on to transmit and returns MEMSUCC; SleepMem,
    which tests ClearCS itself, fails. *)
Theorem select_readback_is_dropped :
  fst (ClearCS stuck_high 0 (power_on (mkBench 10 0x29))) = MEMFAIL /\
  fst (SendCommand stuck_high 0 MRDID (power_on (mkBench 10 0x29))) = MEMSUCC /\
  fst (WakeMem stuck_high 0 (power_on (mkBench 10 0x29))) = MEMSUCC /\
  trace (snd (WakeMem stuck_high 0 (power_on (mkBench 10 0x29)))) =
    [EvPort 0xFE; EvPin 0xFF;
     EvTx 0xAB 0; EvTx 0xA5 0; EvTx 0xA5 0; EvTx 0xA5 0; EvRx 0 0 0x29;
     EvPort 0xFF; EvPin 0xFF] /\
  SleepMem stuck_high 0 (power_on (mkBench 10 0x29)) =
    (MEMFAIL, mkWorld 0xFE 0xFF (mkBench 10 0x29) [EvPort 0xFE; EvPin 0xFF]).
Proof. repeat split. Qed.

(** C5 at work: the status register takes the byte, and does not. *)
Example WriteMemStatus_on_the_bench :
  WriteMemStatus wired 0 0 0x8C (power_on (mkBench 10 0x8D)) =
    (MEMSUCC,
     mkWorld 0xEE 0xFF (mkBench 7 0x8E)
             [EvPort 0xFF; EvPin 0xFF;
              EvPort 0xFE; EvPin 0xFE; EvTx 0x01 0; EvTx 0x8C 0;
              EvPort 0xEE; EvPin 0xEE;
              EvPort 0xEE; EvPin 0xEE; EvTx 0x05 0; EvRx 0 0 0x8D]) /\
  WriteMemStatus wired 0 0 0x8C (power_on (mkBench 10 0x0C)) =
    (MEMFAIL,
     mkWorld 0xEE 0xFF (mkBench 7 0x0D)
             [EvPort 0xFF; EvPin 0xFF;
              EvPort 0xFE; EvPin 0xFE; EvTx 0x01 0; EvTx 0x8C 0;
              EvPort 0xEE; EvPin 0xEE;
              EvPort 0xEE; EvPin 0xEE; EvTx 0x05 0; EvRx 0 0 0x0C]).
Proof. split; reflexivity. Qed.

Lemma WriteMemStatus_verifies_mask_witness :
  fst (WriteMemStatus wired 0 0 0x8C (power_on (mkBench 10 0x8D))) = MEMSUCC /\
  exists q1 q2 q3 q4 s,
    Z.testbit q1 (GetWP 0) = true /\ Z.testbit q3 (GetWP 0) = false /\
    Z.land 0x8C 0x8C = Z.land s 0x8C /\
    trace (snd (WriteMemStatus wired 0 0 0x8C (power_on (mkBench 10 0x8D)))) =
      [EvPort 0xFF; EvPin q1;
       EvPort 0xFE; EvPin q2; EvTx 0x01 0; EvTx 0x8C 0;
       EvPort 0xEE; EvPin q3;
       EvPort 0xEE; EvPin q4; EvTx 0x05 0; EvRx 0 0 s].
Proof.
  assert (Hrun : fst (WriteMemStatus wired 0 0 0x8C
                        (power_on (mkBench 10 0x8D))) = MEMSUCC)
    by reflexivity.
  split; [exact Hrun |].
  destruct (WriteMemStatus_verifies_mask wired 0 0 0x8C
              (power_on (mkBench 10 0x8D)))
    as (q1 & q2 & rc1 & rc2 & q3 & q4 & rc3 & rc4 & s &
        Ht & _ & _ & Hiff & Hdone & _).
  cbv zeta in Ht, Hiff, Hdone.
  destruct (proj1 Hiff Hrun) as (Hpassed & Hmask).
  rewrite (Hdone Hpassed) in Ht.
  destruct Hpassed as (Hq1 & H1 & H2 & Hq3 & H3 & H4).
  rewrite H1, H2, H3, H4 in Ht.
  exists q1, q2, q3, q4, s.
  split; [exact Hq1 |]. split; [exact Hq3 |]. split; [exact Hmask | exact Ht].
Defined.

(** C7: every transfer of this WakeMem succeeds and the byte received is
    0x29, and WakeMem returns MEMFAIL, because chip-select reads back low
    after the deselect. *)
Lemma WakeMem_fails_with_the_signature_read :
  fst (WakeMem stuck_low 0 (power_on (mkBench 10 0x29))) = MEMFAIL /\
  trace (snd (WakeMem stuck_low 0 (power_on (mkBench 10 0x29)))) =
    [EvPort 0xFE; EvPin 0;
     EvTx 0xAB 0; EvTx 0xA5 0; EvTx 0xA5 0; EvTx 0xA5 0; EvRx 0 0 0x29;
     EvPort 0xFF; EvPin 0] /\
  existsb faulted
    (trace (snd (WakeMem stuck_low 0 (power_on (mkBench 10 0x29))))) = false /\
  rx_bytes
    (trace (snd (WakeMem stuck_low 0 (power_on (mkBench 10 0x29))))) = [0x29].
Proof. repeat split. Qed.

(** C8: every transmission and reception of this read succeeds, and ReadData
    returns MEMFAIL, because chip-select reads back low after the
    deselect. *)
Lemma ReadData_fails_without_transport_fault :
  fst (fst (ReadData stuck_low 0 0x1ABCD 2 (fun _ => 0)
              (power_on (mkBench 10 0x29)))) = MEMFAIL /\
  trace (snd (ReadData stuck_low 0 0x1ABCD 2 (fun _ => 0)
                (power_on (mkBench 10 0x29)))) =
    [EvPort 0xFE; EvPin 0;
     EvTx 0x03 0; EvTx 0x01 0; EvTx 0xAB 0; EvTx 0xCD 0;
     EvRx 0 0 0x29; EvRx 0 0 0x2A;
     EvPort 0xFF; EvPin 0] /\
  existsb faulted
    (trace (snd (ReadData stuck_low 0 0x1ABCD 2 (fun _ => 0)
                   (power_on (mkBench 10 0x29))))) = false.
Proof. repeat split. Qed.

(** C10 at work: the reception fails and the caller's 77 is still there. *)
Example ReadMemStatus_on_a_deaf_bus :
  ReadMemStatus deaf 0 77 (power_on (mkBench 10 0)) =
    ((MEMFAIL, 77),
     mkWorld 0xFE 0xFF (mkBench 9 0)
             [EvPort 0xFE; EvPin 0xFE; EvTx 0x05 0; EvRx 0 1 0x55]).
Proof. reflexivity. Qed.

Lemma ReadData_frames_once_witness :
  0 <= 3 <= 0x7FFFFFFF /\
  fst (fst (ReadData wired 2 0x1ABCD 3 (fun _ => 0)
              (power_on (mkBench 10 0x29)))) = MEMSUCC /\
  exists p1 rxs p2,
    length rxs = 3%nat /\
    Forall (fun x => fst x = 0) rxs /\
    trace (snd (ReadData wired 2 0x1ABCD 3 (fun _ => 0)
                  (power_on (mkBench 10 0x29)))) =
      until_failed
        ([write_port 0xFB; read_pin p1;
          transmit 0x03 0; transmit 0x01 0; transmit 0xAB 0; transmit 0xCD 0]
         ++ receptions 0 rxs
         ++ [write_port 0xFF; read_pin_high p2 2]).
Proof.
  assert (H : 0 <= 3 <= 0x7FFFFFFF) by lia.
  assert (Hrun : fst (fst (ReadData wired 2 0x1ABCD 3 (fun _ => 0)
                             (power_on (mkBench 10 0x29)))) = MEMSUCC)
    by reflexivity.
  split; [exact H |]. split; [exact Hrun |].
  destruct (ReadData_frames_once wired 2 0x1ABCD 3 (fun _ => 0)
              (power_on (mkBench 10 0x29)) H)
    as (p1 & rc1 & rc2 & rc3 & rc4 & rxs & p2 & Hlen & Ht & _ & Hiff & _).
  apply Hiff in Hrun as (-> & -> & -> & -> & Hrxs & _).
  exists p1, rxs, p2.
  split; [lia |]. split; [exact Hrxs | exact Ht].
Defined.

(** ** The further properties on concrete hardware *)

Lemma chip_lines_are_distinct_witness :
  0 <= 1 <= 3 /\ 0 <= 2 <= 3 /\
  (GetCS 1 = GetCS 2 <-> 1 = 2) /\ GetCS 1 <> GetWP 2.
Proof.
  assert (H1 : 0 <= 1 <= 3) by lia.
  assert (H2 : 0 <= 2 <= 3) by lia.
  destruct (chip_lines_are_distinct 1 2 H1 H2) as (Hcs & _ & Hwp).
  split; [exact H1 |]. split; [exact H2 |].
  split; [exact Hcs | exact (Hwp 2)].
Defined.

Lemma InitMem_makes_two_lines_outputs_witness :
  0 <= 2 <= 3 /\
  fst (InitMem wired 2 (mkWorld 0xFF 0 (mkBench 10 0x29) [])) = MEMSUCC /\
  Z.testbit (ContDDR (snd (InitMem wired 2 (mkWorld 0xFF 0 (mkBench 10 0x29) []))))
            (GetCS 2) = true.
Proof.
  assert (H : 0 <= 2 <= 3) by lia.
  destruct (InitMem_makes_two_lines_outputs wired 2
              (mkWorld 0xFF 0 (mkBench 10 0x29) []) H) as (Hr & Hcs & _).
  split; [exact H |]. split; [exact Hr | exact Hcs].
Defined.

Lemma CloseMem_undoes_InitMem_witness :
  0 <= 2 <= 3 /\
  Z.testbit (ContDDR (snd (CloseMem 2 (mkWorld 0xFF 0xFF (mkBench 10 0x29) []))))
            (GetCS 2) = false /\
  ContDDR (snd (CloseMem 2
                  (snd (InitMem wired 2 (mkWorld 0xFF 0x11 (mkBench 10 0x29) []))))) =
    0x11.
Proof.
  assert (H : 0 <= 2 <= 3) by lia.
  destruct (CloseMem_undoes_InitMem wired 2
              (mkWorld 0xFF 0xFF (mkBench 10 0x29) []) H) as (Hcs & _).
  destruct (CloseMem_undoes_InitMem wired 2
              (mkWorld 0xFF 0x11 (mkBench 10 0x29) []) H)
    as (_ & _ & _ & _ & Hback & _).
  split; [exact H |]. split; [exact Hcs |].
  apply Hback; [cbn; lia | reflexivity | reflexivity].
Defined.

Lemma deselecting_operations_restore_the_port_witness :
  0 <= ContPort (power_on (mkBench 10 0x29)) < 256 /\
  Z.testbit (ContPort (power_on (mkBench 10 0x29))) (GetCS 1) = true /\
  ContPort (snd (WakeMem wired 1 (power_on (mkBench 10 0x29)))) =
    ContPort (power_on (mkBench 10 0x29)).
Proof.
  assert (H1 : 0 <= ContPort (power_on (mkBench 10 0x29)) < 256) by (cbn; lia).
  assert (H2 : Z.testbit (ContPort (power_on (mkBench 10 0x29))) (GetCS 1) = true)
    by reflexivity.
  destruct (deselecting_operations_restore_the_port wired 1 0 0 0 (fun _ => 0)
              (power_on (mkBench 10 0x29)) H1 H2) as (Hwake & _).
  split; [exact H1 |]. split; [exact H2 |].
  apply Hwake. reflexivity.
Defined.

Lemma ReadData_buffer_holds_what_was_received_witness :
  0 <= 3 <= 0x7FFFFFFF /\
  forall i, i < 0 \/ 3 <= i ->
    snd (fst (ReadData wired 2 0x1ABCD 3 (fun _ => 0)
                (power_on (mkBench 10 0x29)))) i = 0.
Proof.
  assert (H : 0 <= 3 <= 0x7FFFFFFF) by lia.
  destruct (ReadData_buffer_holds_what_was_received wired 2 0x1ABCD 3
              (fun _ => 0) (power_on (mkBench 10 0x29)) H)
    as (l & _ & _ & _ & Hout & _).
  split; [exact H | exact Hout].
Defined.

(** With the count -1 the read goes on for as long as the bus delivers:
    here three bytes, and the fourth reception fails. *)
Lemma ReadData_negative_count_is_huge_witness :
  -0x80000000 <= -1 < 0 /\
  rx_bytes (trace (snd (ReadData fading 0 0 (-1) (fun _ => 0)
                          (power_on (mkBench 7 0x29))))) =
    [0x29; 0x2A; 0x2B] /\
  exists p1 rc1 rc2 rc3 rc4 rxs p2,
    Z.of_nat (length rxs) = 0xFFFFFFFF /\
    trace (snd (ReadData fading 0 0 (-1) (fun _ => 0)
                  (power_on (mkBench 7 0x29)))) =
      until_failed
        ([write_port 0xFE; read_pin p1;
          transmit 0x03 rc1; transmit 0 rc2; transmit 0 rc3; transmit 0 rc4]
         ++ receptions 0 rxs
         ++ [write_port 0xFF; read_pin_high p2 0]).
Proof.
  assert (H : -0x80000000 <= -1 < 0) by lia.
  split; [exact H |]. split; [reflexivity |].
  destruct (ReadData_negative_count_is_huge fading 0 0 (-1) (fun _ => 0)
              (power_on (mkBench 7 0x29)) H)
    as (p1 & rc1 & rc2 & rc3 & rc4 & rxs & p2 & Hlen & Ht & _).
  exists p1, rc1, rc2, rc3, rc4, rxs, p2.
  split; [exact Hlen | exact Ht].
Defined.

Lemma status_poll_stays_selected_during_the_next_operation_witness :
  GetCS 0 <> GetCS 1 /\
  Z.testbit
    (ContPort (snd (WakeMem wired 1
                      (snd (ReadMemStatus wired 0 77 (power_on (mkBench 10 0x29)))))))
    (GetCS 0) = false.
Proof.
  assert (H : GetCS 0 <> GetCS 1) by discriminate.
  destruct (status_poll_stays_selected_during_the_next_operation wired 0 1 77
              (power_on (mkBench 10 0x29)) H) as (l & _ & _ & _ & Hlow).
  split; [exact H | exact Hlow].
Defined.

Lemma GetPage_accepts_negative_addresses_witness :
  -0x800000 <= -1 < 0 /\ fst (GetPage (-1) 7) = MEMSUCC.
Proof.
  assert (H : -0x800000 <= -1 < 0) by lia.
  split; [exact H | exact (GetPage_accepts_negative_addresses (-1) 7 H)].
Defined.
